(** * gymnation-task: the completion orchestration engine

    A shallow embedding of [services/tools.py], [services/pinecone_service.py]
    and [services/openai_service.py], and the properties of the
    specification that were checked against it.

    Python objects that are shared and mutated (the class-level
    [bookings_db], the [Message] objects of a history, the module-level
    Pinecone singleton) live in an explicit world that every operation
    threads through.  Readings of the outside world ([uuid.uuid4()],
    [datetime.utcnow()], the OpenAI and Pinecone clients, the JSON codec)
    are fields of an environment record [Env]. *)

From Stdlib Require Import ZArith Floats.PrimFloat.
From stdpp Require Import base option list strings gmap pretty.

Local Open Scope Z_scope.
Local Open Scope string_scope.
Local Open Scope list_scope.

(** ** Python values and strings *)

(** The scalar JSON values a tool argument can carry after [json.loads].
    The schemas of [AVAILABLE_TOOLS] declare strings and integers only. *)
Inductive value : Type :=
  | VNone
  | VBool (b : bool)
  | VInt (z : Z)
  | VStr (s : string).

#[global] Instance value_eq_dec : EqDecision value.
Proof. solve_decision. Defined.

#[global] Instance value_inhabited : Inhabited value := populate VNone.

(** [if v:] *)
Definition truthy (v : value) : bool :=
  match v with
  | VNone => false
  | VBool b => b
  | VInt z => negb (Z.eqb z 0)
  | VStr s => negb (String.eqb s "")
  end.

(** [a == b]; Python's [bool] is a subclass of [int]. *)
Definition py_eq (a b : value) : bool :=
  match a, b with
  | VNone, VNone => true
  | VBool x, VBool y => Bool.eqb x y
  | VInt x, VInt y => Z.eqb x y
  | VBool x, VInt y => Z.eqb (if x then 1 else 0) y
  | VInt x, VBool y => Z.eqb x (if y then 1 else 0)
  | VStr x, VStr y => String.eqb x y
  | _, _ => false
  end.

(** [a != b] *)
Definition py_ne (a b : value) : bool := negb (py_eq a b).

(** [str(v)], what an f-string prints for [{v}]. *)
Definition py_str (v : value) : string :=
  match v with
  | VNone => "None"
  | VBool true => "True"
  | VBool false => "False"
  | VInt z => pretty z
  | VStr s => s
  end.

(** ["\n"] *)
Definition LF : string := String (Ascii.ascii_of_nat 10) EmptyString.

(** [sep.join(parts)] *)
Fixpoint join (sep : string) (parts : list string) : string :=
  match parts with
  | [] => ""
  | [p] => p
  | p :: rest => p +:+ sep +:+ join sep rest
  end.

(** ** Insertion-ordered dictionaries with string keys

    A Python [dict] iterates in insertion order; assigning to a key that
    is present keeps its position. *)

Fixpoint dict_get {V : Type} (k : string) (d : list (string * V)) : option V :=
  match d with
  | [] => None
  | (k', v) :: rest => if String.eqb k' k then Some v else dict_get k rest
  end.

Fixpoint dict_set {V : Type} (k : string) (v : V) (d : list (string * V))
  : list (string * V) :=
  match d with
  | [] => [(k, v)]
  | (k', v') :: rest =>
      if String.eqb k' k then (k', v) :: rest else (k', v') :: dict_set k v rest
  end.

Definition dict_values {V : Type} (d : list (string * V)) : list V := d.*2.

(** ** services/tools.py: bookings *)

(** An instant of the clock.  The code stores [isoformat()] of it. *)
Definition timestamp : Type := Z.

(** The [booking] dict of [create_booking]; the argument values are stored
    as they come, without validation. *)
Record Booking : Type := mkBooking {
  booking_id : string;
  service_type : value;
  date : value;
  time : value;
  duration_minutes : value;
  customer_name : value;
  customer_email : value;
  notes : value;
  status : value;
  created_at : timestamp;
  updated_at : timestamp
}.

#[global] Instance Booking_eq_dec : EqDecision Booking.
Proof. solve_decision. Defined.

(** The dict a tool returns; a key that is absent is [None]. *)
Record Result : Type := mkResult {
  success : option bool;
  res_booking_id : option string;
  message : option string;
  booking : option Booking;
  error : option string;
  count : option nat;
  bookings : option (list Booking)
}.

(** The OpenAI function-calling catalog, by tool name. *)
Definition AVAILABLE_TOOLS : list string :=
  ["create_booking"; "update_booking"; "get_booking"].

(** What the environment answers: [uuid4 n], [utcnow n] and [now_plus n]
    are the readings of [uuid.uuid4()], [datetime.utcnow()] and
    [(datetime.now() + timedelta(days=2)).strftime("%Y-%m-%d")] at the
    [n]-th reading of the run. *)
Record Clock : Type := mkClock {
  uuid4 : nat → string;
  utcnow : nat → timestamp;
  now_plus : nat → string
}.

(** [ToolExecutor]'s class state: [bookings_db], and how many readings of
    the environment have been made. *)
Record Store : Type := mkStore {
  bookings_db : list (string * Booking);
  draws : nat
}.

(** [ToolExecutor.create_booking] *)
Definition create_booking (C : Clock)
    (service_type date time customer_name customer_email : value)
    (duration_minutes notes : value) (st : Store) : Result * Store :=
  let booking_id := uuid4 C (draws st) in
  let booking :=
    {| booking_id := booking_id;
       service_type := service_type;
       date := date;
       time := time;
       duration_minutes := duration_minutes;
       customer_name := customer_name;
       customer_email := customer_email;
       notes := notes;
       status := VStr "confirmed";
       created_at := utcnow C (1 + draws st)%nat;
       updated_at := utcnow C (2 + draws st)%nat |} in
  ({| success := Some true;
      res_booking_id := Some booking_id;
      message := Some ("Booking created successfully for " +:+ py_str customer_name
                       +:+ " on " +:+ py_str date +:+ " at " +:+ py_str time);
      booking := Some booking;
      error := None; count := None; bookings := None |},
   {| bookings_db := dict_set booking_id booking (bookings_db st);
      draws := (3 + draws st)%nat |}).

(** [booking_id in cls.bookings_db] and [cls.bookings_db[booking_id]]: the
    keys are the strings [create_booking] made, so only a string finds one. *)
Definition db_lookup (booking_id : value) (db : list (string * Booking))
  : option (string * Booking) :=
  match booking_id with
  | VStr k => (λ b, (k, b)) <$> dict_get k db
  | _ => None
  end.

(** [booking[field] = v] for the fields [update_booking] writes. *)
Definition setitem (b : Booking) (field : string) (v : value) : Booking :=
  if String.eqb field "date" then
    mkBooking (booking_id b) (service_type b) v (time b) (duration_minutes b)
      (customer_name b) (customer_email b) (notes b) (status b)
      (created_at b) (updated_at b)
  else if String.eqb field "time" then
    mkBooking (booking_id b) (service_type b) (date b) v (duration_minutes b)
      (customer_name b) (customer_email b) (notes b) (status b)
      (created_at b) (updated_at b)
  else if String.eqb field "duration_minutes" then
    mkBooking (booking_id b) (service_type b) (date b) (time b) v
      (customer_name b) (customer_email b) (notes b) (status b)
      (created_at b) (updated_at b)
  else if String.eqb field "status" then
    mkBooking (booking_id b) (service_type b) (date b) (time b) (duration_minutes b)
      (customer_name b) (customer_email b) (notes b) v
      (created_at b) (updated_at b)
  else if String.eqb field "notes" then
    mkBooking (booking_id b) (service_type b) (date b) (time b) (duration_minutes b)
      (customer_name b) (customer_email b) v (status b)
      (created_at b) (updated_at b)
  else b.

(** [booking[field]] for the same fields. *)
Definition getitem (b : Booking) (field : string) : value :=
  if String.eqb field "date" then date b
  else if String.eqb field "time" then time b
  else if String.eqb field "duration_minutes" then duration_minutes b
  else if String.eqb field "status" then status b
  else if String.eqb field "notes" then notes b
  else VNone.

Definition set_updated_at (b : Booking) (t : timestamp) : Booking :=
  mkBooking (booking_id b) (service_type b) (date b) (time b) (duration_minutes b)
    (customer_name b) (customer_email b) (notes b) (status b) (created_at b) t.

(** The fields [update_booking] loops over, in its order. *)
Definition UPDATABLE : list string :=
  ["date"; "time"; "duration_minutes"; "status"; "notes"].

(** [field in kwargs and kwargs[field] is not None] *)
Definition supplied (kwargs : gmap string value) (field : string) : option value :=
  match kwargs !! field with
  | Some VNone => None
  | Some v => Some v
  | None => None
  end.

(** One turn of the loop of [update_booking]. *)
Definition update_step (kwargs : gmap string value)
    (acc : Booking * list string) (field : string) : Booking * list string :=
  match supplied kwargs field with
  | Some v => (setitem acc.1 field v, (acc.2 ++ [field])%list)
  | None => acc
  end.

(** [ToolExecutor.update_booking] *)
Definition update_booking (C : Clock) (booking_id : value)
    (kwargs : gmap string value) (st : Store) : Result * Store :=
  match db_lookup booking_id (bookings_db st) with
  | None =>
      ({| success := Some false;
          error := Some ("Booking " +:+ py_str booking_id +:+ " not found");
          res_booking_id := None; message := None; booking := None;
          count := None; bookings := None |}, st)
  | Some (key, booking) =>
      let '(booking, updated_fields) :=
        foldl (update_step kwargs) (booking, []) UPDATABLE in
      let booking := set_updated_at booking (utcnow C (draws st)) in
      ({| success := Some true;
          res_booking_id := Some key;
          message := Some ("Booking updated successfully. Updated fields: "
                           +:+ join ", " updated_fields);
          booking := Some booking;
          error := None; count := None; bookings := None |},
       {| bookings_db := dict_set key booking (bookings_db st);
          draws := S (draws st) |})
  end.

(** The body of the filter loop of [get_booking]: the final [match] for
    one booking, given the filters [customer_email], [date] and [status]. *)
Definition booking_matches (email_filter date_filter status_filter : value)
    (b : Booking) : bool :=
  negb (truthy email_filter && py_ne (customer_email b) email_filter)
  && negb (truthy date_filter && py_ne (date b) date_filter)
  && negb (py_ne status_filter (VStr "all") && py_ne (status b) status_filter).

Definition listing (bs : list Booking) : Result :=
  {| success := Some true; count := Some (length bs); bookings := Some bs;
     res_booking_id := None; message := None; booking := None; error := None |}.

(** [ToolExecutor.get_booking] *)
Definition get_booking (C : Clock)
    (booking_id customer_email date status : value) (st : Store) : Result * Store :=
  if truthy booking_id then
    match db_lookup booking_id (bookings_db st) with
    | Some (_, b) =>
        ({| success := Some true; booking := Some b;
            res_booking_id := None; message := None; error := None;
            count := None; bookings := None |}, st)
    | None =>
        ({| success := Some false;
            error := Some ("Booking " +:+ py_str booking_id +:+ " not found");
            res_booking_id := None; message := None; booking := None;
            count := None; bookings := None |}, st)
    end
  else
    let filtered_bookings :=
      List.filter (booking_matches customer_email date status)
        (dict_values (bookings_db st)) in
    match filtered_bookings, bookings_db st with
    | [], [] =>
        let sample_date := now_plus C (draws st) in
        let '(_, st') :=
          create_booking C (VStr "personal_training") (VStr sample_date)
            (VStr "10:00") (VStr "John Doe") (VStr "john@example.com")
            (VInt 60) (VStr "First session")
            {| bookings_db := bookings_db st; draws := S (draws st) |} in
        (listing (dict_values (bookings_db st')), st')
    | _, _ => (listing filtered_bookings, st)
    end.

(** *** Dispatch by name: [ToolExecutor.execute_tool] *)

(** Every key of [arguments] names a parameter among [allowed]. *)
Definition keys_within (allowed : list string) (arguments : gmap string value) : bool :=
  forallb (λ kv, bool_decide (kv.1 ∈ allowed)) (map_to_list arguments).

(** Every parameter of [required] has a key in [arguments]. *)
Definition keys_present (required : list string) (arguments : gmap string value) : bool :=
  forallb (λ k, bool_decide (is_Some (arguments !! k))) required.

(** [arguments.get(k, d)]: a parameter with default [d]. *)
Definition arg (arguments : gmap string value) (k : string) (d : value) : value :=
  default d (arguments !! k).

(** The call of [tool_map[tool_name]] with [arguments] unpacked as keywords;
    [None] is the [TypeError] Python raises when they do not fit the
    signature: a keyword that names no parameter, a required parameter
    without a keyword, or, for [update_booking] with its open keyword set,
    a keyword [cls] that clashes with the bound class. *)
Definition call_tool (C : Clock) (tool_name : string)
    (arguments : gmap string value) (st : Store) : option (Result * Store) :=
  if String.eqb tool_name "create_booking" then
    if keys_within ["service_type"; "date"; "time"; "customer_name";
                    "customer_email"; "duration_minutes"; "notes"] arguments
       && keys_present ["service_type"; "date"; "time"; "customer_name";
                        "customer_email"] arguments
    then Some (create_booking C
                 (arg arguments "service_type" VNone) (arg arguments "date" VNone)
                 (arg arguments "time" VNone) (arg arguments "customer_name" VNone)
                 (arg arguments "customer_email" VNone)
                 (arg arguments "duration_minutes" (VInt 60))
                 (arg arguments "notes" (VStr "")) st)
    else None
  else if String.eqb tool_name "update_booking" then
    if keys_present ["booking_id"] arguments
       && negb (bool_decide (is_Some (arguments !! "cls")))
    then Some (update_booking C (arg arguments "booking_id" VNone)
                 (delete "booking_id" arguments) st)
    else None
  else if String.eqb tool_name "get_booking" then
    if keys_within ["booking_id"; "customer_email"; "date"; "status"] arguments
    then Some (get_booking C
                 (arg arguments "booking_id" VNone) (arg arguments "customer_email" VNone)
                 (arg arguments "date" VNone) (arg arguments "status" (VStr "all")) st)
    else None
  else None.

(** The keys of [tool_map]. *)
Definition tool_map : list string :=
  ["create_booking"; "update_booking"; "get_booking"].

Definition error_result (msg : string) : Result :=
  {| error := Some msg; success := None; res_booking_id := None; message := None;
     booking := None; count := None; bookings := None |}.

(** [ToolExecutor.execute_tool]; [type_error] is [str(e)] of the
    [TypeError] of a call that does not fit. *)
Definition execute_tool (C : Clock)
    (type_error : string → gmap string value → string)
    (tool_name : string) (arguments : gmap string value) (st : Store)
  : Result * Store :=
  if bool_decide (tool_name ∈ tool_map) then
    match call_tool C tool_name arguments st with
    | Some r => r
    | None =>
        (error_result ("Tool execution failed: " +:+ type_error tool_name arguments), st)
    end
  else (error_result ("Unknown tool: " +:+ tool_name), st).

(** The bullet of a listing line, in UTF-8. *)
Definition BULLET : string := "•".

Definition booking_line (b : Booking) : string :=
  LF +:+ BULLET +:+ " " +:+ py_str (customer_name b) +:+ " - "
  +:+ py_str (service_type b) +:+ " on " +:+ py_str (date b) +:+ " at "
  +:+ py_str (time b) +:+ " " +:+ "(Status: " +:+ py_str (status b) +:+ ")".

(** [format_tool_response]; [dumps_indent] is [json.dumps(result, indent=2)].
    A successful result of the executor always carries the keys its branch
    reads here. *)
Definition format_tool_response (dumps_indent : Result → string)
    (tool_name : string) (result : Result) : string :=
  let fallback := "[Tool Result: " +:+ dumps_indent result +:+ "]" in
  match error result with
  | Some e => "[Tool Error: " +:+ e +:+ "]"
  | None =>
      if String.eqb tool_name "create_booking" then
        match success result, booking result with
        | Some true, Some b =>
            "[Booking Created Successfully]" +:+ LF
            +:+ "Booking ID: " +:+ booking_id b +:+ LF
            +:+ "Customer: " +:+ py_str (customer_name b) +:+ LF
            +:+ "Service: " +:+ py_str (service_type b) +:+ LF
            +:+ "Date/Time: " +:+ py_str (date b) +:+ " at " +:+ py_str (time b) +:+ LF
            +:+ "Duration: " +:+ py_str (duration_minutes b) +:+ " minutes"
        | _, _ => fallback
        end
      else if String.eqb tool_name "update_booking" then
        match success result, message result with
        | Some true, Some m => "[Booking Updated Successfully]" +:+ LF +:+ m
        | _, _ => fallback
        end
      else if String.eqb tool_name "get_booking" then
        match success result, booking result, bookings result with
        | Some true, Some b, _ =>
            "[Booking Found]" +:+ LF
            +:+ "Booking ID: " +:+ booking_id b +:+ LF
            +:+ "Customer: " +:+ py_str (customer_name b) +:+ LF
            +:+ "Service: " +:+ py_str (service_type b) +:+ LF
            +:+ "Date/Time: " +:+ py_str (date b) +:+ " at " +:+ py_str (time b) +:+ LF
            +:+ "Status: " +:+ py_str (status b)
        | Some true, None, Some bs =>
            if bool_decide (count result = Some 0%nat)
            then "[No bookings found matching the criteria]"
            else foldl (λ bookings_text b, bookings_text +:+ booking_line b)
                   ("[Found " +:+ from_option pretty "" (count result)
                    +:+ " booking(s)]" +:+ LF) bs
        | _, _, _ => fallback
        end
      else fallback
  end.

(** ** services/pinecone_service.py: the retrieval gateway *)

(** A raised exception, by its text. *)
Definition exn : Type := string.

(** [match.metadata], for the keys the code reads. *)
Record Metadata : Type := mkMetadata {
  md_text : option string;
  md_title : option string;
  md_source : option string
}.

(** One element of [results.matches]. *)
Record Match : Type := mkMatch {
  match_id : string;
  match_score : float;
  match_metadata : Metadata
}.

(** The [doc] dict of [search_knowledge_base]. *)
Record Document : Type := mkDocument {
  doc_id : string;
  doc_score : float;
  doc_text : string;
  doc_title : string;
  doc_source : string;
  doc_metadata : Metadata
}.

(** A [PineconeService] object: [self.index] ([None] when the connection
    failed), with its [query(vector, top_k)], and the embeddings endpoint of
    [self.openai_client].  A call that raises answers [inl]. *)
Record PineconeService : Type := mkPineconeService {
  index : option (list float → nat → exn + list Match);
  embeddings_create : string → exn + list float
}.

(** [PineconeService.generate_embedding] *)
Definition generate_embedding (self : PineconeService) (text : string) : list float :=
  match embeddings_create self text with
  | inr embedding => embedding
  | inl _ => []
  end.

Definition to_document (m : Match) : Document :=
  {| doc_id := match_id m;
     doc_score := match_score m;
     doc_text := default "" (md_text (match_metadata m));
     doc_title := default "" (md_title (match_metadata m));
     doc_source := default "" (md_source (match_metadata m));
     doc_metadata := match_metadata m |}.

(** [PineconeService.search_knowledge_base] *)
Definition search_knowledge_base (self : PineconeService) (query : string)
    (top_k : nat) : list Document :=
  match index self with
  | None => []
  | Some index_query =>
      let query_embedding := generate_embedding self query in
      match query_embedding with
      | [] => []
      | _ :: _ =>
          match index_query query_embedding top_k with
          | inr matches => to_document <$> matches
          | inl _ => []
          end
      end
  end.

(** [len(s)] *)
Definition len (s : string) : Z := Z.of_nat (String.length s).

(** The formatted text of one document. *)
Definition doc_text_of (doc : Document) : string :=
  if negb (String.eqb (doc_title doc) "")
  then "[" +:+ doc_title doc +:+ "]" +:+ LF +:+ doc_text doc
  else doc_text doc.

(** The loop of [get_context_for_prompt] from a given point on: the
    documents left, [context_parts] and [total_length] so far. *)
Fixpoint accumulate (max_context_length : Z) (documents : list Document)
    (context_parts : list string) (total_length : Z) : list string :=
  match documents with
  | [] => context_parts
  | doc :: rest =>
      let doc_text := doc_text_of doc in
      if (total_length + len doc_text >? max_context_length)%Z
      then context_parts
      else accumulate max_context_length rest
             (context_parts ++ [doc_text])%list (total_length + len doc_text)%Z
  end.

Definition CONTEXT_HEADER : string := "### Relevant Business Information:" +:+ LF.

(** The part of [get_context_for_prompt] after the search. *)
Definition context_of (documents : list Document) (max_context_length : Z) : string :=
  match documents with
  | [] => ""
  | _ :: _ =>
      match accumulate max_context_length documents [] 0 with
      | [] => ""
      | context_parts => CONTEXT_HEADER +:+ join (LF +:+ LF) context_parts
      end
  end.

(** [PineconeService.get_context_for_prompt] *)
Definition get_context_for_prompt (self : PineconeService) (query : string)
    (max_context_length : Z) : string :=
  context_of (search_knowledge_base self query 3) max_context_length.

(** ** services/openai_service.py: the orchestrator *)

(** [models.Message.role] *)
Inductive Role : Type := User | Assistant | System.

#[global] Instance Role_eq_dec : EqDecision Role.
Proof. solve_decision. Defined.

Definition role_str (r : Role) : string :=
  match r with
  | User => "user"
  | Assistant => "assistant"
  | System => "system"
  end.

(** [models.Message] *)
Record Message : Type := mkMessage {
  msg_id : string;
  role : Role;
  content : string;
  msg_created_at : timestamp
}.

#[global] Instance Message_eq_dec : EqDecision Message.
Proof. solve_decision. Defined.

#[global] Instance Message_inhabited : Inhabited Message :=
  populate (mkMessage "" User "" 0).

(** One entry of the [tool_calls] of the assistant message sent back. *)
Record WireToolCall : Type := mkWireToolCall {
  wtc_id : string;
  wtc_type : string;
  wtc_name : string;
  wtc_arguments : string
}.

(** A dict of [formatted_messages]. *)
Record ChatMessage : Type := mkChatMessage {
  cm_role : string;
  cm_content : string;
  cm_tool_calls : option (list WireToolCall);
  cm_tool_call_id : option string
}.

(** What [chat.completions.create] is called with: [messages], and [tools]
    (with [tool_choice="auto"]) when the catalog is attached. *)
Record Request : Type := mkRequest {
  req_messages : list ChatMessage;
  req_tools : option (list string)
}.

(** A [tool_call] of the model's answer, its arguments still JSON text. *)
Record RawToolCall : Type := mkRawToolCall {
  raw_id : string;
  raw_name : string;
  raw_arguments : string
}.

(** [response.choices[0].message] *)
Record Response : Type := mkResponse {
  resp_content : option string;
  resp_tool_calls : list RawToolCall
}.

(** A tool call as [get_completion] returns it. *)
Record ToolCall : Type := mkToolCall {
  tc_id : string;
  tc_name : string;
  tc_arguments : gmap string value
}.

(** The collaborators: the clock and id source, the JSON codec, the text of
    a [TypeError], the chat endpoint (its [n]-th call of the run) and the
    outcome of constructing a [PineconeService]. *)
Record Env : Type := mkEnv {
  clock : Clock;
  json_loads : string → exn + gmap string value;
  json_dumps_arguments : gmap string value → string;
  json_dumps : Result → string;
  json_dumps_indent : Result → string;
  type_error : string → gmap string value → string;
  chat_completions_create : nat → Request → exn + Response;
  PineconeService_init : exn + PineconeService
}.

(** The mutable world: the [Message] objects by reference, the booking
    store, the module-level [pinecone_service], and the requests sent to
    the model so far, oldest first. *)
Record World : Type := mkWorld {
  heap : gmap nat Message;
  store : Store;
  pinecone_service : option PineconeService;
  model_calls : list Request
}.

(** Computations that read and write the world and may raise. *)
Definition M (A : Type) : Type := World → (exn + A) * World.

#[global] Instance M_ret : MRet M := λ A a w, (inr a, w).

#[global] Instance M_bind : MBind M := λ A B f m w,
  match m w with
  | (inr a, w') => f a w'
  | (inl e, w') => (inl e, w')
  end.

Definition raise {A : Type} (e : exn) : M A := λ w, (inl e, w).

Definition get_world : M World := λ w, (inr w, w).

(** [try: ... except Exception as e: raise Exception(wrap(e))] *)
Definition rewrap {A : Type} (wrap : exn → exn) (m : M A) : M A := λ w,
  match m w with
  | (inl e, w') => (inl (wrap e), w')
  | r => r
  end.

(** The world with another booking store. *)
Definition set_store (w : World) (st : Store) : World :=
  mkWorld (heap w) st (pinecone_service w) (model_calls w).

(** The world after one more request to the model. *)
Definition logged (w : World) (req : Request) : World :=
  mkWorld (heap w) (store w) (pinecone_service w) (model_calls w ++ [req]).

(** A tool run against the store of the world. *)
Definition on_store {A : Type} (f : Store → A * Store) : M A := λ w,
  let '(a, st) := f (store w) in
  (inr a, set_store w st).

(** The object behind a reference. *)
Definition deref (w : World) (l : nat) : Message := heap w !!! l.

(** [self.client.chat.completions.create(...)] *)
Definition create (E : Env) (req : Request) : M Response := λ w,
  match chat_completions_create E (length (model_calls w)) req with
  | inr resp => (inr resp, logged w req)
  | inl e => (inl e, logged w req)
  end.

(** [prompts.SYSTEM_PROMPT] *)
Definition SYSTEM_PROMPT : string :=
"You are a helpful booking assistant for a fitness and wellness center. 
Your primary role is to help users:
1. Create new bookings for services (gym sessions, personal training, massage, consultations)
2. Check existing bookings
3. Update or cancel bookings
4. Answer questions about services and availability

You have access to booking tools that you can use when users request booking-related actions:
- create_booking: To make new appointments
- get_booking: To check existing bookings
- update_booking: To modify or cancel bookings

Be friendly, professional, and proactive in helping users manage their bookings.
When users ask about bookings, automatically use the appropriate tools to help them.
Always confirm important details like dates, times, and customer information.

If a user asks something unrelated to bookings, politely redirect them or provide brief help while suggesting they focus on booking-related queries.".

Definition MINIMAL_PROMPT : string :=
"You are a helpful assistant with access to booking management tools. 
Use these tools when users need to create, view, or modify bookings.".

Definition DETAILED_PROMPT : string :=
"You are an AI booking concierge for a premium fitness and wellness center.

Your capabilities include:
- Creating new bookings for various services
- Retrieving booking information
- Updating existing bookings
- Canceling appointments

Guidelines:
1. Always verify customer details before creating bookings
2. Suggest optimal time slots based on availability
3. Provide booking confirmations with all relevant details
4. Be proactive in offering assistance with scheduling
5. Handle cancellations professionally and offer alternatives

Remember to:
- Use a warm, professional tone
- Confirm all booking details before finalizing
- Offer helpful suggestions for services
- Respect privacy and handle customer data carefully".

(** [prompts.get_system_prompt] *)
Definition get_system_prompt (prompt_type : string) : string :=
  default SYSTEM_PROMPT
    (dict_get prompt_type
       [("default", SYSTEM_PROMPT); ("minimal", MINIMAL_PROMPT);
        ("detailed", DETAILED_PROMPT)]).

(** [{"role": "system", "content": get_system_prompt("default")}] *)
Definition system_message : ChatMessage :=
  {| cm_role := "system"; cm_content := get_system_prompt "default";
     cm_tool_calls := None; cm_tool_call_id := None |}.

(** [{"role": msg.role, "content": msg.content}] *)
Definition format_message (w : World) (l : nat) : ChatMessage :=
  {| cm_role := role_str (role (deref w l)); cm_content := content (deref w l);
     cm_tool_calls := None; cm_tool_call_id := None |}.

(** [not messages or messages[0].role != "system"] *)
Definition lacks_system (w : World) (messages : list nat) : bool :=
  match messages with
  | [] => true
  | l :: _ => negb (bool_decide (role (deref w l) = System))
  end.

(** One turn of the loop of [get_completion] over [message.tool_calls]. *)
Definition parse_tool_call (E : Env) (tool_call : RawToolCall) : M ToolCall :=
  match json_loads E (raw_arguments tool_call) with
  | inr arguments =>
      mret {| tc_id := raw_id tool_call; tc_name := raw_name tool_call;
              tc_arguments := arguments |}
  | inl e => raise e
  end.

(** The message list [get_completion] builds: the system prompt when it is
    enabled and the history does not start with one, then the history. *)
Definition formatted_messages_of (w : World) (messages : list nat)
    (include_system_prompt : bool) : list ChatMessage :=
  ((if include_system_prompt && lacks_system w messages
    then [system_message] else [])
   ++ (format_message w <$> messages))%list.

(** [message.content or ""] *)
Definition content_or_empty (c : option string) : string :=
  match c with
  | Some c => c
  | None => ""
  end.

(** [OpenAIService.get_completion] *)
Definition get_completion (E : Env) (messages : list nat)
    (use_tools include_system_prompt : bool)
  : M (option string * option (list ToolCall)) :=
  rewrap (λ e, "OpenAI API error: " +:+ e)
    (w ← get_world;
     let formatted_messages :=
       formatted_messages_of w messages include_system_prompt in
     response ← create E
       {| req_messages := formatted_messages;
          req_tools := if use_tools then Some AVAILABLE_TOOLS else None |};
     match resp_tool_calls response with
     | [] => mret (resp_content response, None)
     | raw =>
         tool_calls ← mapM (parse_tool_call E) raw;
         mret (Some (content_or_empty (resp_content response)), Some tool_calls)
     end).

(** [get_pinecone_service] *)
Definition get_pinecone_service (E : Env) : M (option PineconeService) := λ w,
  match pinecone_service w with
  | Some service => (inr (Some service), w)
  | None =>
      match PineconeService_init E with
      | inr service =>
          (inr (Some service),
           mkWorld (heap w) (store w) (Some service) (model_calls w))
      | inl _ => (inr None, w)
      end
  end.

(** The first block of [get_completion_with_tools]: [rag_context]. *)
Definition rag_context_of (E : Env) (messages : list nat) (use_rag : bool) : M string :=
  if use_rag && negb (bool_decide (messages = []))
  then
    pinecone ← get_pinecone_service E;
    match pinecone with
    | Some pinecone =>
        w ← get_world;
        let user_messages :=
          List.filter (λ l, bool_decide (role (deref w l) = User)) messages in
        match last user_messages with
        | Some l => mret (get_context_for_prompt pinecone (content (deref w l)) 2000)
        | None => mret ""
        end
    | None => mret ""
    end
  else mret "".

(** [msg.content = c]: the object behind [l] is written in place. *)
Definition set_content (l : nat) (c : string) : M unit := λ w,
  (inr (),
   mkWorld (alter (λ m, mkMessage (msg_id m) (role m) c (msg_created_at m)) l (heap w))
     (store w) (pinecone_service w) (model_calls w)).

(** The second block: [enhanced_messages[-1]] is rewritten when there is a
    context and the last message is the user's. *)
Definition enhance (rag_context : string) (enhanced_messages : list nat) : M unit :=
  if negb (String.eqb rag_context "") then
    w ← get_world;
    match last enhanced_messages with
    | Some l =>
        if bool_decide (role (deref w l) = User) then
          let original_content := content (deref w l) in
          set_content l (rag_context +:+ LF +:+ LF +:+ "User Question: "
                         +:+ original_content)
        else mret ()
    | None => mret ()
    end
  else mret ().

(** [ToolExecutor.execute_tool] on the store of the world. *)
Definition run_tool (E : Env) (tool_call : ToolCall) : M Result :=
  on_store (execute_tool (clock E) (type_error E)
              (tc_name tool_call) (tc_arguments tool_call)).

(** The provisional text [full_response]. *)
Definition full_response_of (content : option string) (tool_results : list string)
  : string :=
  let full_response := content_or_empty content in
  let full_response :=
    if negb (String.eqb full_response "")
    then full_response +:+ LF +:+ LF else full_response in
  full_response +:+ join LF tool_results.

(** One turn of the first loop over [tool_calls]: run, then format. *)
Definition tool_result (E : Env) (tool_call : ToolCall) : M string :=
  result ← run_tool E tool_call;
  mret (format_tool_response (json_dumps_indent E) (tc_name tool_call) result).

Definition wire_tool_call (E : Env) (tc : ToolCall) : WireToolCall :=
  {| wtc_id := tc_id tc; wtc_type := "function"; wtc_name := tc_name tc;
     wtc_arguments := json_dumps_arguments E (tc_arguments tc) |}.

(** The assistant message that carries the tool calls back. *)
Definition assistant_message (E : Env) (content : option string)
    (tool_calls : list ToolCall) : ChatMessage :=
  {| cm_role := "assistant";
     cm_content := content_or_empty content;
     cm_tool_calls := Some (wire_tool_call E <$> tool_calls);
     cm_tool_call_id := None |}.

(** One turn of the loop that appends the tool-role messages, over
    [zip(tool_calls, tool_results)]. *)
Definition tool_message (E : Env) (entry : ToolCall * string) : M ChatMessage :=
  let '(tool_call, _) := entry in
  result ← run_tool E tool_call;
  mret {| cm_role := "tool"; cm_content := json_dumps E result;
          cm_tool_calls := None; cm_tool_call_id := Some (tc_id tool_call) |}.

(** [get_completion_with_tools] once the model has asked for [tool_calls]:
    from [# Process tool calls] to the end. *)
Definition process_tool_calls (E : Env) (messages : list nat)
    (content : option string) (tool_calls : list ToolCall) : M (option string) :=
  tool_results ← mapM (tool_result E) tool_calls;
  let full_response := full_response_of content tool_results in
  w ← get_world;
  let history := format_message w <$> messages in
  tool_messages ← mapM (tool_message E) (zip tool_calls tool_results);
  final_response ← create E
    {| req_messages :=
         ([system_message] ++ history
          ++ [assistant_message E content tool_calls] ++ tool_messages)%list;
       req_tools := None |};
  mret (resp_content final_response).

(** [get_completion_with_tools] from the first model call on. *)
Definition complete (E : Env) (messages enhanced_messages : list nat)
  : M (option string) :=
  '(content, tool_calls) ← get_completion E enhanced_messages true true;
  match tool_calls with
  | None | Some [] => mret content
  | Some tool_calls => process_tool_calls E messages content tool_calls
  end.

(** [OpenAIService.get_completion_with_tools]; [messages.copy()] is a new
    list of the same references. *)
Definition get_completion_with_tools (E : Env) (messages : list nat)
    (use_rag : bool) : M (option string) :=
  rag_context ← rag_context_of E messages use_rag;
  let enhanced_messages := messages in
  _ ← enhance rag_context enhanced_messages;
  complete E messages enhanced_messages.

(** The argument-given fields of a booking, in the order of the signature
    of [create_booking]. *)
Definition given_fields (b : Booking)
  : value * value * value * value * value * value * value :=
  (service_type b, date b, time b, customer_name b, customer_email b,
   duration_minutes b, notes b).

(** ** upload_pdf.py: chunking the text of the knowledge base *)

(** [current_size] after the words of a chunk: each word counts its length
    and one more for the space. *)
Definition size_of (words : list string) : Z :=
  foldr (λ word acc, (len word + 1 + acc)%Z) 0%Z words.



(** ** The claims of the specification, as predicates on the code *)

(** Python's [==] on a value and a filter, as a proposition. *)
Definition equals (field filter_value : value) : Prop := py_eq field filter_value = true.

(** A booking matches every supplied filter: exact match on
    [customer_email], [date] and [status], unless [status] is ["all"].  A
    filter that is [None] or empty counts as not supplied. *)
Definition matches_filters (customer_email_f date_f status_f : value)
    (b : Booking) : Prop :=
  (truthy customer_email_f = true → equals (customer_email b) customer_email_f)
  ∧ (truthy date_f = true → equals (date b) date_f)
  ∧ (status_f ≠ VStr "all" → equals (status b) status_f).

#[global] Instance matches_filters_dec e d s b : Decision (matches_filters e d s b).
Proof. unfold matches_filters, equals. apply _. Defined.

(** Claim C3 as it is written: [get_booking] without a [bookingId] returns
    exactly the matching bookings of the store and leaves the store as it
    was. *)
Definition get_booking_is_a_read (C : Clock)
    (customer_email_f date_f status_f : value) (st : Store) : Prop :=
  get_booking C VNone customer_email_f date_f status_f st
  = (listing (filter (matches_filters customer_email_f date_f status_f)
                (dict_values (bookings_db st))), st).

(** The summed length of a list of chunks. *)
Definition total_len (parts : list string) : Z :=
  foldr (λ part acc, (len part + acc)%Z) 0%Z parts.

(** The chunks [get_context_for_prompt] takes into the context. *)
Definition included_parts (documents : list Document) (max_context_length : Z)
  : list string :=
  accumulate max_context_length documents [] 0.

(** Claim C7's bound as it is written: the length of the returned context
    never exceeds the sum of the lengths of the included whole chunks. *)
Definition context_within_chunks (documents : list Document)
    (max_context_length : Z) : Prop :=
  (len (context_of documents max_context_length)
   ≤ total_len (included_parts documents max_context_length))%Z.

(** The greedy choice on formatted chunks, without the accumulators of the
    loop: take chunks while the running total stays within the budget. *)
Fixpoint greedy (max_context_length : Z) (texts : list string) (total_length : Z)
  : list string :=
  match texts with
  | [] => []
  | t :: rest =>
      if (total_length + len t >? max_context_length)%Z then []
      else t :: greedy max_context_length rest (total_length + len t)%Z
  end.

(** Why a retrieval comes back empty for a service and a query: no index
    (the connection failed), the embedding call failed or gave nothing, the
    query failed, or it found no candidate. *)
Inductive degraded (service : PineconeService) (query : string) : Prop :=
  | no_index :
      index service = None → degraded service query
  | embedding_failed e :
      embeddings_create service query = inl e → degraded service query
  | embedding_empty :
      embeddings_create service query = inr [] → degraded service query
  | query_failed index_query e :
      index service = Some index_query →
      index_query (generate_embedding service query) 3%nat = inl e →
      degraded service query
  | no_candidates index_query :
      index service = Some index_query →
      index_query (generate_embedding service query) 3%nat = inr [] →
      degraded service query.

(** The vector store is not configured: no service object yet, and making
    one raises. *)
Definition unavailable (E : Env) (w : World) : Prop :=
  pinecone_service w = None ∧ ∃ e, PineconeService_init E = inl e.

(** The service the turn talks to: the cached one, else the one made now. *)
Definition service_of (E : Env) (w : World) : option PineconeService :=
  match pinecone_service w with
  | Some service => Some service
  | None =>
      match PineconeService_init E with
      | inr service => Some service
      | inl _ => None
      end
  end.

(** The retrieval query of a turn: the content of the last user message. *)
Definition latest_query (w : World) (messages : list nat) : option string :=
  (λ l, content (deref w l))
    <$> last (List.filter (λ l, bool_decide (role (deref w l) = User)) messages).

(** A document with a text and a title, as ingestion writes them. *)
Definition chunk (text title : string) : Document :=
  to_document (mkMatch "gymnation_facts_0" PrimFloat.one
                 (mkMetadata (Some text) (Some title) (Some "GymNation_Facts.pdf"))).

(** The store after running a list of tool calls through
    [ToolExecutor.execute_tool], in order. *)
Definition run_all (E : Env) (tool_calls : list ToolCall) (st : Store) : Store :=
  foldl (λ st tool_call,
           (execute_tool (clock E) (type_error E)
              (tc_name tool_call) (tc_arguments tool_call) st).2)
    st tool_calls.

(** The content of the last user-role message of a composed list. *)
Definition last_user_content (composed : list ChatMessage) : option string :=
  cm_content
    <$> last (List.filter (λ m, String.eqb (cm_role m) "user") composed).

(** The message list of model call #1 for a history and an augmentation
    text: the second block of [get_completion_with_tools], then the list
    [get_completion] builds. *)
Definition composed (augmentation : string) (messages : list nat) (w : World)
  : list ChatMessage :=
  formatted_messages_of (enhance augmentation messages w).2 messages true.

(** What an augmented user message reads. *)
Definition augmented (augmentation original_content : string) : string :=
  augmentation +:+ LF +:+ LF +:+ "User Question: " +:+ original_content.

(** Claim C6 as it is written: the augmentation is prefixed to the last
    message whose role is user, wherever it sits in the history. *)
Definition augmentation_reaches_last_user (augmentation : string)
    (messages : list nat) (w : World) : Prop :=
  ∀ original_content,
    latest_query w messages = Some original_content →
    last_user_content (composed augmentation messages w)
    = Some (augmented augmentation original_content).

(** A response with its tool calls dropped. *)
Definition without_tool_calls (resp : Response) : Response :=
  {| resp_content := resp_content resp; resp_tool_calls := [] |}.

(** The environment in which the model's answer to call number [n] of the
    run carries no tool calls, and everything else is as in [E]. *)
Definition discarding (E : Env) (n : nat) : Env :=
  mkEnv (clock E) (json_loads E) (json_dumps_arguments E) (json_dumps E)
    (json_dumps_indent E) (type_error E)
    (λ k req,
       if Nat.eqb k n then
         match chat_completions_create E k req with
         | inr resp => inr (without_tool_calls resp)
         | inl e => inl e
         end
       else chat_completions_create E k req)
    (PineconeService_init E).

(** What a pass returns when its second model call answers [r]. *)
Definition final_answer (r : exn + Response) : exn + option string :=
  match r with
  | inr resp => inr (resp_content resp)
  | inl e => inl e
  end.

(** A [bookingId] the store knows: it is one of the keys.  The keys are the
    strings [create_booking] made. *)
Definition known (id : value) (db : list (string * Booking)) : Prop :=
  ∃ k, id = VStr k ∧ k ∈ db.*1.

(** A clock that never gives the same instant twice and is never set back.
    [datetime.utcnow()] promises neither: it reads the wall clock, at the
    resolution of the platform. *)
Definition strictly_increasing (C : Clock) : Prop :=
  ∀ n m, (n < m)%nat → (utcnow C n < utcnow C m)%Z.

(** The stores the three operations of [ToolExecutor] build from an empty
    [bookings_db], whatever they are called with. *)
Inductive reachable (C : Clock) : Store → Prop :=
  | reachable_start (n : nat) :
      reachable C {| bookings_db := []; draws := n |}
  | reachable_create (st : Store)
        (service_type date time customer_name customer_email : value)
        (duration_minutes notes : value) :
      reachable C st →
      reachable C (create_booking C service_type date time customer_name
                     customer_email duration_minutes notes st).2
  | reachable_update (st : Store) (id : value) (kwargs : gmap string value) :
      reachable C st → reachable C (update_booking C id kwargs st).2
  | reachable_get (st : Store) (id email_f date_f status_f : value) :
      reachable C st → reachable C (get_booking C id email_f date_f status_f st).2.

(** Every [updated_at] of the store was read from the clock before its
    [n]-th reading. *)
Definition stamped_before (C : Clock) (n : nat) (db : list (string * Booking)) : Prop :=
  Forall (λ kb, ∃ i, (i < n)%nat ∧ updated_at kb.2 = utcnow C i) db.

(** [updated_at] advances: the stamp of the booking under [id] is later
    after [update_booking] than it was before. *)
Definition updated_at_advances (C : Clock) (id : value)
    (kwargs : gmap string value) (st : Store) : Prop :=
  ∀ k b b',
    id = VStr k →
    dict_get k (bookings_db st) = Some b →
    dict_get k (bookings_db (update_booking C id kwargs st).2) = Some b' →
    (updated_at b < updated_at b')%Z.

(** The shape every store built by the tools has: the keys are distinct,
    and each booking sits under its own [booking_id]. *)
Definition store_wf (st : Store) : Prop :=
  NoDup (bookings_db st).*1
  ∧ Forall (λ kb, booking_id kb.2 = kb.1) (bookings_db st).

(** The parameters of [create_booking] and of [get_booking], and the ones
    [create_booking] requires. *)
Definition CREATE_PARAMS : list string :=
  ["service_type"; "date"; "time"; "customer_name"; "customer_email";
   "duration_minutes"; "notes"].

Definition CREATE_REQUIRED : list string :=
  ["service_type"; "date"; "time"; "customer_name"; "customer_email"].

Definition GET_PARAMS : list string :=
  ["booking_id"; "customer_email"; "date"; "status"].

(** A call the dispatcher cannot place: the name is not a tool, a required
    argument is missing, or a keyword names no parameter. *)
Definition ill_fitting (tool_name : string) (arguments : gmap string value) : Prop :=
  tool_name ∉ tool_map
  ∨ (tool_name = "create_booking"
     ∧ ∃ k, k ∈ CREATE_REQUIRED ∧ arguments !! k = None)
  ∨ (tool_name = "create_booking"
     ∧ ∃ k, is_Some (arguments !! k) ∧ k ∉ CREATE_PARAMS)
  ∨ (tool_name = "update_booking" ∧ arguments !! "booking_id" = None)
  ∨ (tool_name = "get_booking"
     ∧ ∃ k, is_Some (arguments !! k) ∧ k ∉ GET_PARAMS).

(** How one tool call may change the store: not at all, or by one
    assignment [bookings_db[k] = b], where [b] carries the id [k] or the id
    of the booking it replaces. *)
Definition store_step (st st' : Store) : Prop :=
  bookings_db st' = bookings_db st
  ∨ ∃ k b,
      bookings_db st' = dict_set k b (bookings_db st)
      ∧ (booking_id b = k
         ∨ ∃ b0, dict_get k (bookings_db st) = Some b0
                 ∧ booking_id b = booking_id b0).

(** The updatable fields a keyword set supplies, in the order of the loop
    of [update_booking]. *)
Definition supplied_fields (kwargs : gmap string value) : list string :=
  filter (λ f, is_Some (supplied kwargs f)) UPDATABLE.

(** A result either reports success and carries no error, or carries an
    error text, does not report success, and is rendered as a tool error. *)
Definition succeeded_or_failed (tool_name : string) (r : Result) : Prop :=
  (success r = Some true ∧ error r = None)
  ∨ ∃ e, error r = Some e
         ∧ success r ≠ Some true
         ∧ ∀ dumps, format_tool_response dumps tool_name r
                    = "[Tool Error: " +:+ e +:+ "]".

(** A raw tool call of the model and the tool call [get_completion] makes
    of it: same id, same name, the arguments as [json.loads] read them. *)
Definition parsed (E : Env) (raw : RawToolCall) (tool_call : ToolCall) : Prop :=
  tc_id tool_call = raw_id raw
  ∧ tc_name tool_call = raw_name raw
  ∧ json_loads E (raw_arguments raw) = inr (tc_arguments tool_call).


(** A tool-role message that answers a tool call. *)
Definition answers (tool_call : ToolCall) (m : ChatMessage) : Prop :=
  cm_role m = "tool"
  ∧ cm_tool_call_id m = Some (tc_id tool_call)
  ∧ cm_tool_calls m = None.

(** The same message but for its content. *)
Definition same_but_content (m m' : Message) : Prop :=
  msg_id m' = msg_id m ∧ role m' = role m
  ∧ msg_created_at m' = msg_created_at m.




(** ** Concrete inputs *)

Definition demo_clock : Clock :=
  {| uuid4 := λ n, "uuid-" +:+ pretty n;
     utcnow := λ n, (1000 + Z.of_nat n)%Z;
     now_plus := λ _, "2024-06-03" |}.

Definition empty_store : Store := {| bookings_db := []; draws := 0 |}.

(** A clock that reads the same instant at every reading: two readings
    within the resolution of the platform's clock. *)
Definition still_clock : Clock :=
  {| uuid4 := λ n, "uuid-" +:+ pretty n;
     utcnow := λ _, 1000%Z;
     now_plus := λ _, "2024-06-03" |}.

(** Scenario A of the specification: Ann books a massage. *)
Definition ann_store : Store :=
  (create_booking demo_clock (VStr "massage") (VStr "2024-06-01") (VStr "09:00")
     (VStr "Ann") (VStr "ann@x.com") (VInt 60) (VStr "") empty_store).2.

(** The arguments of scenario A. *)
Definition ann_arguments : gmap string value :=
  list_to_map [("service_type", VStr "massage"); ("date", VStr "2024-06-01");
               ("time", VStr "09:00"); ("customer_name", VStr "Ann");
               ("customer_email", VStr "ann@x.com")].

(** The model asks for [create_booking] with Ann's arguments. *)
Definition asks_create_booking : Response :=
  {| resp_content := None;
     resp_tool_calls := [mkRawToolCall "call_1" "create_booking" "ANN"] |}.

(** A model that asks for the booking tool in every round, with a codec
    that knows the one argument text ["ANN"], and a Pinecone constructor
    with the outcome [init]. *)
Definition demo_env (init : exn + PineconeService) : Env :=
  {| clock := demo_clock;
     json_loads := λ text,
       if String.eqb text "ANN" then inr ann_arguments
       else inl "Expecting value: line 1 column 1 (char 0)";
     json_dumps_arguments := λ _, "ANN";
     json_dumps := λ r, default "{}" (res_booking_id r);
     json_dumps_indent := λ r, default "{}" (res_booking_id r);
     type_error := λ tool_name _, tool_name +:+ "() got an unexpected keyword argument";
     chat_completions_create := λ n _,
       match n with
       | O => inr asks_create_booking
       | S _ => inr {| resp_content := Some "Your massage is booked.";
                       resp_tool_calls := resp_tool_calls asks_create_booking |}
       end;
     PineconeService_init := init |}.

(** No key in the environment: constructing the service raises. *)
Definition not_configured : exn + PineconeService :=
  inl "PINECONE_API_KEY not found in environment variables".

(** A knowledge base that answers every query with one chunk. *)
Definition one_chunk_service : PineconeService :=
  {| index := Some (λ _ _,
       inr [mkMatch "gymnation_facts_0" PrimFloat.one
              (mkMetadata (Some "Open 24/7") None None)]);
     embeddings_create := λ _, inr [PrimFloat.one] |}.

(** A world whose heap holds the given messages at the references
    [0, 1, ...], with an empty store and nothing sent yet. *)
Definition world_of (history : list Message) : World :=
  {| heap := list_to_map (imap (λ i m, (i, m)) history);
     store := empty_store;
     pinecone_service := None;
     model_calls := [] |}.

(** A message of the given role and text. *)
Definition says (r : Role) (text : string) : Message := mkMessage "" r text 0.

(** * Properties *)

(** ** Dictionaries *)

Section dict.
Context {V : Type}.
Implicit Types (d : list (string * V)) (k : string) (v : V).

Lemma dict_get_set_eq d k v : dict_get k (dict_set k v d) = Some v.
Proof.
  induction d as [|[k' v'] d IH]; simpl.
  - by rewrite String.eqb_refl.
  - destruct (String.eqb k' k) eqn:Hk; simpl; by rewrite Hk.
Qed.

Lemma dict_get_set_ne d k k' v :
  k ≠ k' → dict_get k' (dict_set k v d) = dict_get k' d.
Proof.
  intros Hne. induction d as [|[k0 v0] d IH]; simpl.
  - by apply String.eqb_neq in Hne as ->.
  - destruct (String.eqb k0 k) eqn:Hk; simpl.
    + apply String.eqb_eq in Hk as ->.
      by apply String.eqb_neq in Hne as ->.
    + by rewrite IH.
Qed.

Lemma dict_set_keys d k v :
  is_Some (dict_get k d) → (dict_set k v d).*1 = d.*1.
Proof.
  induction d as [|[k0 v0] d IH]; simpl.
  - by intros [? ?].
  - destruct (String.eqb k0 k); csimpl; [done|].
    intros H. f_equal. by apply IH.
Qed.

Lemma dict_set_fresh d k v :
  dict_get k d = None → dict_set k v d = d ++ [(k, v)].
Proof.
  induction d as [|[k0 v0] d IH]; simpl; [done|].
  destruct (String.eqb k0 k); [done|].
  intros H. by rewrite IH.
Qed.
End dict.

Lemma dict_get_None_keys {V : Type} (d : list (string * V)) (k : string) :
  dict_get k d = None ↔ k ∉ d.*1.
Proof.
  induction d as [|[k' v] d IH]; csimpl.
  - split; [intros _; apply not_elem_of_nil | done].
  - rewrite not_elem_of_cons. destruct (String.eqb k' k) eqn:Hk.
    + apply String.eqb_eq in Hk as ->. split; [done | by intros [? _]].
    + apply String.eqb_neq in Hk. rewrite IH. split; [by split | by intros [_ ?]].
Qed.

Lemma dict_get_Some_elem {V : Type} (d : list (string * V)) (k : string) (v : V) :
  dict_get k d = Some v → (k, v) ∈ d.
Proof.
  induction d as [|[k' v'] d IH]; simpl; [done|].
  destruct (String.eqb k' k) eqn:Hk.
  - apply String.eqb_eq in Hk as ->. intros [= ->]. apply elem_of_cons. by left.
  - intros H. apply elem_of_cons. right. by apply IH.
Qed.

Lemma dict_set_Forall {V : Type} (P : string * V → Prop)
    (d : list (string * V)) (k : string) (v : V) :
  P (k, v) → Forall P d → Forall P (dict_set k v d).
Proof.
  intros Hkv. induction d as [|[k' v'] d IH]; simpl.
  - intros _. by apply Forall_singleton.
  - intros [Hhd Htl]%Forall_cons. destruct (String.eqb k' k) eqn:Hk.
    + apply String.eqb_eq in Hk as ->. by apply Forall_cons.
    + apply Forall_cons. split; [done | by apply IH].
Qed.

(** ** Values *)

Lemma py_eq_all (s : value) : py_eq s (VStr "all") = true ↔ s = VStr "all".
Proof.
  destruct s as [| b | z | s]; simpl; try (split; [done | by inversion 1]).
  rewrite String.eqb_eq. split; [by intros -> | by inversion 1].
Qed.

Lemma py_eq_str (a b : string) : py_eq (VStr a) (VStr b) = true ↔ a = b.
Proof. simpl. apply String.eqb_eq. Qed.

Lemma booking_matches_spec (e d s : value) (b : Booking) :
  booking_matches e d s b = true ↔ matches_filters e d s b.
Proof.
  unfold booking_matches, matches_filters, equals, py_ne.
  assert (s ≠ VStr "all" ↔ py_eq s (VStr "all") = false) as ->.
  { rewrite <- py_eq_all. destruct (py_eq s (VStr "all")); naive_solver. }
  destruct (truthy e), (truthy d), (py_eq (customer_email b) e),
    (py_eq (date b) d), (py_eq s (VStr "all")), (py_eq (status b) s);
    simpl; intuition congruence.
Qed.

Lemma filter_booking_matches (e d s : value) (bs : list Booking) :
  List.filter (booking_matches e d s) bs = filter (matches_filters e d s) bs.
Proof.
  induction bs as [|b bs IH]; [done|].
  rewrite filter_cons. simpl. rewrite IH.
  destruct (booking_matches e d s b) eqn:Hb.
  - apply booking_matches_spec in Hb. by rewrite decide_True.
  - rewrite decide_False; [done|].
    intros Hm. apply booking_matches_spec in Hm. congruence.
Qed.

(** ** The booking store *)

Section tools.
Variable C : Clock.


Lemma db_lookup_Some (booking_id : value) (db : list (string * Booking)) k b :
  db_lookup booking_id db = Some (k, b) →
  booking_id = VStr k ∧ dict_get k db = Some b.
Proof.
  destruct booking_id as [| | |s]; simpl; try done.
  destruct (dict_get s db) eqn:Hs; simpl; [|done].
  intros [= <- <-]. done.
Qed.

Lemma getitem_set_updated_at (b : Booking) (t : timestamp) (f : string) :
  getitem (set_updated_at b t) f = getitem b f.
Proof. reflexivity. Qed.

(** The loop of [update_booking] over its five fields: each supplied field
    takes the supplied value, each other one keeps its value, and nothing
    else of the booking moves. *)
Lemma update_loop (kwargs : gmap string value) (b : Booking) :
  let b' := (foldl (update_step kwargs) (b, []) UPDATABLE).1 in
  (∀ f, f ∈ UPDATABLE → getitem b' f = default (getitem b f) (supplied kwargs f))
  ∧ booking_id b' = booking_id b
  ∧ service_type b' = service_type b
  ∧ customer_name b' = customer_name b
  ∧ customer_email b' = customer_email b
  ∧ created_at b' = created_at b
  ∧ updated_at b' = updated_at b.
Proof.
  unfold UPDATABLE, update_step. simpl.
  destruct (supplied kwargs "date") eqn:H1, (supplied kwargs "time") eqn:H2,
    (supplied kwargs "duration_minutes") eqn:H3,
    (supplied kwargs "status") eqn:H4, (supplied kwargs "notes") eqn:H5;
    simpl; (split; [|done]);
    intros f Hf;
    repeat (apply elem_of_cons in Hf as [-> | Hf];
            [rewrite ?H1, ?H2, ?H3, ?H4, ?H5; reflexivity|]);
    by apply elem_of_nil in Hf.
Qed.

Lemma stamped_before_le (n m : nat) (db : list (string * Booking)) :
  (n ≤ m)%nat → stamped_before C n db → stamped_before C m db.
Proof.
  intros Hle Hdb. eapply Forall_impl; [exact Hdb|].
  intros kb (i & Hi & Heq). exists i. split; [lia | done].
Qed.

(** Every stamp of a store the tools built is a reading of the clock that
    was made before the reading that comes next. *)
Lemma reachable_stamped_before (st : Store) :
  reachable C st → stamped_before C (draws st) (bookings_db st).
Proof.
  induction 1 as [n | st a1 a2 a3 a4 a5 a6 a7 _ IH | st id kwargs _ IH
                  | st id e d s _ IH].
  - apply Forall_nil_2.
  - simpl. apply dict_set_Forall.
    + exists (2 + draws st)%nat. split; [lia | done].
    + apply (stamped_before_le (draws st)); [lia | done].
  - unfold update_booking.
    destruct (db_lookup id (bookings_db st)) as [[k b]|]; [|done].
    destruct (foldl (update_step kwargs) (b, []) UPDATABLE) as [b1 fields].
    simpl. apply dict_set_Forall.
    + exists (draws st). split; [lia | done].
    + apply (stamped_before_le (draws st)); [lia | done].
  - unfold get_booking. destruct (truthy id).
    + by destruct (db_lookup id (bookings_db st)) as [[k b]|].
    + destruct (List.filter _ _); [|done].
      destruct (bookings_db st) eqn:Hdb; [|simpl; by rewrite Hdb].
      simpl. apply Forall_singleton. exists (3 + draws st)%nat.
      split; [lia | done].
Qed.

(** C8, amended.  [update_booking] on an id that is not a key of the store
    answers [success: False] with an error and returns the store as it
    was.  On an id that is a key it answers [success: True]; in the stored
    booking every field among date, time, duration_minutes, status and
    notes that was supplied (present and not [None]) has the supplied
    value, every other field has its prior value, the keys of the store and
    the bookings under the other keys are unchanged, and [updated_at] is
    the reading of the clock at the call.  That reading is later than the
    prior stamp for every store the tools built from an empty one when the
    clock is strictly increasing; the code itself does not see to it. *)
Theorem update_booking_frame (id : value) (kwargs : gmap string value)
    (st : Store) :
  (¬ known id (bookings_db st) →
   ∃ r, update_booking C id kwargs st = (r, st)
        ∧ success r = Some false ∧ is_Some (error r))
  ∧ (known id (bookings_db st) →
     ∃ k b r st' b',
       id = VStr k
       ∧ dict_get k (bookings_db st) = Some b
       ∧ update_booking C id kwargs st = (r, st')
       ∧ success r = Some true ∧ error r = None ∧ booking r = Some b'
       ∧ dict_get k (bookings_db st') = Some b'
       ∧ (∀ f v, f ∈ UPDATABLE → supplied kwargs f = Some v → getitem b' f = v)
       ∧ (∀ f, f ∈ UPDATABLE → supplied kwargs f = None →
               getitem b' f = getitem b f)
       ∧ booking_id b' = booking_id b
       ∧ service_type b' = service_type b
       ∧ customer_name b' = customer_name b
       ∧ customer_email b' = customer_email b
       ∧ created_at b' = created_at b
       ∧ updated_at b' = utcnow C (draws st)
       ∧ (strictly_increasing C → reachable C st →
          (updated_at b < updated_at b')%Z)
       ∧ (bookings_db st').*1 = (bookings_db st).*1
       ∧ (∀ k', k' ≠ k →
                dict_get k' (bookings_db st') = dict_get k' (bookings_db st))).
Proof.
  split.
  - intros Hunknown. unfold update_booking.
    destruct (db_lookup id (bookings_db st)) as [[k b]|] eqn:Hlook.
    + apply db_lookup_Some in Hlook as [-> Hget]. destruct Hunknown.
      exists k. split; [done|].
      destruct (decide (k ∈ (bookings_db st).*1)) as [|Hk]; [done|].
      apply dict_get_None_keys in Hk. congruence.
    + eexists. split; [reflexivity|]. simpl. split; [done | by eexists].
  - intros (k & -> & Hk).
    destruct (dict_get k (bookings_db st)) as [b|] eqn:Hget;
      [|by apply dict_get_None_keys in Hget].
    pose proof (update_loop kwargs b) as Hloop. cbv zeta in Hloop.
    assert (db_lookup (VStr k) (bookings_db st) = Some (k, b)) as Hlook.
    { unfold db_lookup. by rewrite Hget. }
    unfold update_booking. rewrite Hlook.
    destruct (foldl (update_step kwargs) (b, []) UPDATABLE) as [b1 fields].
    simpl in Hloop. destruct Hloop as (Hf & Hid & Hsv & Hcn & Hce & Hca & Hua).
    exists k, b. eexists _, _, _. split; [done|]. split; [done|].
    split; [reflexivity|]. simpl.
    split_and!; try done.
    + apply dict_get_set_eq.
    + intros f v Hin Hs. specialize (Hf f Hin). rewrite Hs in Hf.
      rewrite getitem_set_updated_at. exact Hf.
    + intros f Hin Hs. specialize (Hf f Hin). rewrite Hs in Hf.
      rewrite getitem_set_updated_at. exact Hf.
    + intros Hinc Hreach.
      apply reachable_stamped_before in Hreach.
      apply dict_get_Some_elem in Hget.
      unfold stamped_before in Hreach. rewrite Forall_forall in Hreach.
      destruct (Hreach _ Hget) as (i & Hi & Hstamp). simpl in Hstamp.
      rewrite Hstamp. by apply Hinc.
    + apply dict_set_keys. by rewrite Hget.
    + intros k' Hk'. by apply dict_get_set_ne.
Qed.

(** C3, amended.  Without a [bookingId]: on a store that holds a booking,
    [get_booking] returns exactly the bookings of the store, in store
    order, that match every supplied filter, and the store is unchanged;
    on an empty store it first inserts one sample booking and returns it,
    whatever the filters. *)
Theorem get_booking_reads_nonempty_store
    (id email_f date_f status_f : value) (st : Store) :
  truthy id = false →
  (bookings_db st ≠ [] →
   get_booking C id email_f date_f status_f st
   = (listing (filter (matches_filters email_f date_f status_f)
                 (dict_values (bookings_db st))), st))
  ∧ (bookings_db st = [] →
     ∃ b, get_booking C id email_f date_f status_f st
          = (listing [b],
             {| bookings_db := [(booking_id b, b)]; draws := 4 + draws st |})
          ∧ booking_id b = uuid4 C (1 + draws st)
          ∧ given_fields b
            = (VStr "personal_training", VStr (now_plus C (draws st)),
               VStr "10:00", VStr "John Doe", VStr "john@example.com",
               VInt 60, VStr "First session")
          ∧ status b = VStr "confirmed").
Proof.
  intros Hid. unfold get_booking. rewrite Hid. split.
  - intros Hne. rewrite filter_booking_matches.
    destruct (bookings_db st) as [|kb db] eqn:Hdb; [done|].
    by destruct (filter _ _).
  - intros ->. simpl. eexists (mkBooking _ _ _ _ _ _ _ _ _ _ _).
    split; [reflexivity|]. done.
Qed.
End tools.

(** Ann cancels her booking under a clock that moves on with every
    reading: the status changes, the date stays, the stamp is later. *)
Lemma update_booking_frame_witness :
  known (VStr "uuid-0") (bookings_db ann_store)
  ∧ strictly_increasing demo_clock
  ∧ reachable demo_clock ann_store
  ∧ ∃ b b',
      dict_get "uuid-0" (bookings_db ann_store) = Some b
      ∧ dict_get "uuid-0"
          (bookings_db (update_booking demo_clock (VStr "uuid-0")
                          {["status" := VStr "cancelled"]} ann_store).2) = Some b'
      ∧ status b' = VStr "cancelled"
      ∧ date b' = date b
      ∧ (updated_at b < updated_at b')%Z.
Proof.
  assert (known (VStr "uuid-0") (bookings_db ann_store)) as Hknown.
  { exists "uuid-0". split; [reflexivity|]. vm_compute. apply elem_of_cons. by left. }
  assert (strictly_increasing demo_clock) as Hinc.
  { intros n m Hnm. simpl. lia. }
  assert (reachable demo_clock ann_store) as Hreach.
  { apply reachable_create. exact (reachable_start demo_clock 0). }
  split; [exact Hknown|]. split; [exact Hinc|]. split; [exact Hreach|].
  destruct (proj2 (update_booking_frame demo_clock (VStr "uuid-0")
                     {["status" := VStr "cancelled"]} ann_store) Hknown)
    as (k & b & r & st' & b' & Hid & Hb & Heq & _ & _ & _ & Hget & Hset & Hkeep
        & _ & _ & _ & _ & _ & _ & Hadv & _).
  injection Hid as <-.
  exists b, b'. rewrite Heq. split; [exact Hb|]. split; [exact Hget|].
  split; [|split].
  - apply (Hset "status"); [|reflexivity].
    unfold UPDATABLE. rewrite !elem_of_cons. tauto.
  - apply (Hkeep "date"); [|reflexivity]. unfold UPDATABLE. rewrite elem_of_cons. tauto.
  - by apply Hadv.
Defined.

(** C8 as written fails where it says that [updated_at] advances.  Under a
    clock that reads the same instant twice, a booking that
    [create_booking] has just stored and [update_booking] then cancels
    keeps the stamp it had. *)
Lemma update_booking_still_clock_counterexample :
  let st := (create_booking still_clock (VStr "massage") (VStr "2024-06-01")
               (VStr "09:00") (VStr "Ann") (VStr "ann@x.com") (VInt 60)
               (VStr "") empty_store).2 in
  reachable still_clock st
  ∧ known (VStr "uuid-0") (bookings_db st)
  ∧ ¬ updated_at_advances still_clock (VStr "uuid-0")
        {["status" := VStr "cancelled"]} st.
Proof.
  cbv zeta. split; [|split].
  - apply reachable_create. exact (reachable_start still_clock 0).
  - exists "uuid-0". split; [reflexivity|]. vm_compute. apply elem_of_cons. by left.
  - intros Hadv.
    specialize (Hadv "uuid-0" _ _ eq_refl eq_refl eq_refl).
    vm_compute in Hadv. discriminate Hadv.
Qed.

(** With Ann's booking in the store, a search by her e-mail reads it back
    and leaves the store alone. *)
Lemma get_booking_reads_nonempty_store_witness :
  truthy VNone = false
  ∧ bookings_db ann_store ≠ []
  ∧ get_booking demo_clock VNone (VStr "ann@x.com") VNone (VStr "all") ann_store
    = (listing (filter (matches_filters (VStr "ann@x.com") VNone (VStr "all"))
                  (dict_values (bookings_db ann_store))), ann_store).
Proof.
  assert (bookings_db ann_store ≠ []) as Hne by (vm_compute; discriminate).
  split; [reflexivity|]. split; [exact Hne|].
  exact (proj1 (get_booking_reads_nonempty_store demo_clock VNone
                  (VStr "ann@x.com") VNone (VStr "all") ann_store eq_refl) Hne).
Defined.

(** C3 as written fails on the empty store: the call with no filter at all
    answers one booking, the sample it has just inserted. *)
Lemma get_booking_empty_store_counterexample :
  ¬ get_booking_is_a_read demo_clock VNone VNone (VStr "all") empty_store.
Proof.
  unfold get_booking_is_a_read. vm_compute. intros H. discriminate H.
Qed.


(** ** The retrieval gateway *)

Lemma len_app (a b : string) : len (a +:+ b) = (len a + len b)%Z.
Proof.
  unfold len. induction a as [|c a IH].
  - done.
  - change (String c a +:+ b) with (String c (a +:+ b)).
    cbn [String.length]. lia.
Qed.

Lemma total_len_app (xs ys : list string) :
  total_len (xs ++ ys) = (total_len xs + total_len ys)%Z.
Proof.
  unfold total_len. induction xs as [|x xs IH]; simpl; [done|]. rewrite IH. lia.
Qed.

Lemma len_nonneg (s : string) : (0 ≤ len s)%Z.
Proof. unfold len. lia. Qed.

(** The loop with its accumulators is the greedy choice appended to what
    was already taken. *)
Lemma accumulate_greedy (L : Z) (docs : list Document) (acc : list string) (tot : Z) :
  accumulate L docs acc tot = acc ++ greedy L (doc_text_of <$> docs) tot.
Proof.
  revert acc tot. induction docs as [|doc docs IH]; intros acc tot; csimpl.
  - by rewrite app_nil_r.
  - destruct (tot + len (doc_text_of doc) >? L)%Z.
    + by rewrite app_nil_r.
    + rewrite IH. by rewrite <- app_assoc.
Qed.

Lemma greedy_prefix (L : Z) (texts : list string) (tot : Z) :
  greedy L texts tot `prefix_of` texts.
Proof.
  revert tot. induction texts as [|t texts IH]; intros tot; simpl.
  - done.
  - destruct (tot + len t >? L)%Z; [apply prefix_nil|]. by apply prefix_cons.
Qed.

Lemma greedy_budget (L : Z) (texts : list string) (tot : Z) :
  greedy L texts tot ≠ [] → (tot + total_len (greedy L texts tot) ≤ L)%Z.
Proof.
  revert tot. induction texts as [|t texts IH]; intros tot; simpl; [done|].
  destruct (tot + len t >? L)%Z eqn:Hgt; [done|]. intros _.
  rewrite Z.gtb_ltb in Hgt. apply Z.ltb_ge in Hgt.
  change (total_len (t :: ?x)) with (len t + total_len x)%Z.
  destruct (greedy L texts (tot + len t)) as [|p ps] eqn:Hg.
  - unfold total_len; simpl. lia.
  - specialize (IH (tot + len t)%Z). rewrite Hg in IH.
    assert (p :: ps ≠ []) as Hne by done. specialize (IH Hne). lia.
Qed.

Lemma greedy_stops_before (L : Z) (texts : list string) (tot : Z) (next : string) :
  texts !! length (greedy L texts tot) = Some next →
  (tot + total_len (greedy L texts tot) + len next > L)%Z.
Proof.
  revert tot. induction texts as [|t texts IH]; intros tot; simpl; [done|].
  destruct (tot + len t >? L)%Z eqn:Hgt; simpl.
  - intros [= ->]. unfold total_len; simpl. apply Z.gtb_lt in Hgt. lia.
  - intros Hnext. specialize (IH _ Hnext).
    unfold total_len in *; simpl. lia.
Qed.

Lemma len_join_blank (parts : list string) :
  parts ≠ [] →
  len (join (LF +:+ LF) parts)
  = (total_len parts + 2 * (Z.of_nat (length parts) - 1))%Z.
Proof.
  induction parts as [|p [|q parts] IH]; [done| |].
  - intros _. unfold total_len; simpl. lia.
  - intros _. change (join (LF +:+ LF) (p :: q :: parts))
      with (p +:+ (LF +:+ LF) +:+ join (LF +:+ LF) (q :: parts)).
    rewrite !len_app, IH by done.
    change (len LF) with 1%Z.
    unfold total_len; simpl length; simpl foldr. lia.
Qed.

(** C7, amended.  The chunks taken into the context are whole formatted
    chunks, a prefix of the documents in the order the store returned them;
    their summed length stays within [maxLength]; the first chunk left out,
    if there is one, would have pushed the sum over it.  The returned text
    is empty when no chunk is taken, and otherwise the header line followed
    by the chunks joined by blank lines, so its length is the sum of the
    chunk lengths plus 35 for the header and 2 for each separator. *)
Theorem context_is_whole_chunks (documents : list Document) (max_context_length : Z) :
  let parts := included_parts documents max_context_length in
  parts `prefix_of` (doc_text_of <$> documents)
  ∧ (parts ≠ [] → (total_len parts ≤ max_context_length)%Z)
  ∧ (∀ next, (doc_text_of <$> documents) !! length parts = Some next →
             (total_len parts + len next > max_context_length)%Z)
  ∧ (parts = [] → context_of documents max_context_length = "")
  ∧ (parts ≠ [] →
     context_of documents max_context_length
     = CONTEXT_HEADER +:+ join (LF +:+ LF) parts
     ∧ len (context_of documents max_context_length)
       = (35 + total_len parts + 2 * (Z.of_nat (length parts) - 1))%Z).
Proof.
  unfold included_parts. rewrite accumulate_greedy. simpl.
  split_and!.
  - apply greedy_prefix.
  - intros Hne. pose proof (greedy_budget _ _ _ Hne). lia.
  - intros next Hnext. pose proof (greedy_stops_before _ _ _ _ Hnext). lia.
  - intros Hnil. unfold context_of. destruct documents; [done|].
    by rewrite accumulate_greedy, app_nil_l, Hnil.
  - intros Hne.
    assert (context_of documents max_context_length
            = CONTEXT_HEADER +:+ join (LF +:+ LF)
                (greedy max_context_length (doc_text_of <$> documents) 0)) as Hctx.
    { unfold context_of. destruct documents as [|d ds]; [done|].
      rewrite accumulate_greedy, app_nil_l.
      by destruct (greedy _ _ _). }
    split; [done|].
    rewrite Hctx, len_app, len_join_blank by done.
    change (len CONTEXT_HEADER) with 35%Z. lia.
Qed.

(** One untitled chunk of one character within the default budget. *)
Lemma context_is_whole_chunks_witness :
  included_parts [chunk "a" ""] 2000 ≠ []
  ∧ len (context_of [chunk "a" ""] 2000) = 36%Z.
Proof.
  assert (included_parts [chunk "a" ""] 2000 ≠ []) as Hne
    by (vm_compute; discriminate).
  split; [exact Hne|].
  destruct (context_is_whole_chunks [chunk "a" ""] 2000)
    as (_ & _ & _ & _ & Hlen).
  destruct (Hlen Hne) as [_ ->]. reflexivity.
Defined.

(** C7 as written fails: for that chunk the context has 36 characters, the
    one included chunk has 1. *)
Lemma context_longer_than_chunks_counterexample :
  ¬ context_within_chunks [chunk "a" ""] 2000.
Proof.
  unfold context_within_chunks. vm_compute. intros H. by apply H.
Qed.


(** ** The state-and-exception monad *)

Lemma bind_unfold {A B : Type} (m : M A) (f : A → M B) (w : World) :
  (m ≫= f) w = match m w with
               | (inr a, w') => f a w'
               | (inl e, w') => (inl e, w')
               end.
Proof. reflexivity. Qed.

(** ** Retrieval failures *)

Lemma degraded_context (service : PineconeService) (query : string) (L : Z) :
  degraded service query → get_context_for_prompt service query L = "".
Proof.
  unfold get_context_for_prompt, search_knowledge_base.
  intros [Hidx | e He | He | iq e Hidx Hq | iq Hidx Hq].
  - by rewrite Hidx.
  - unfold generate_embedding. rewrite He. by destruct (index service).
  - unfold generate_embedding. rewrite He. by destruct (index service).
  - rewrite Hidx, Hq. by destruct (generate_embedding service query).
  - rewrite Hidx, Hq. by destruct (generate_embedding service query).
Qed.

(** The retrieval block never raises, and touches neither the messages,
    nor the store, nor the log of model calls. *)
Lemma rag_context_of_total (E : Env) (messages : list nat) (use_rag : bool) (w : World) :
  ∃ s p, rag_context_of E messages use_rag w
         = (inr s, mkWorld (heap w) (store w) p (model_calls w)).
Proof.
  unfold rag_context_of. destruct w as [h st ps mc].
  destruct (use_rag && negb (bool_decide (messages = []))); [|by eexists _, _].
  rewrite bind_unfold. unfold get_pinecone_service. simpl.
  destruct ps as [svc|].
  - rewrite bind_unfold. unfold get_world.
    destruct (last _); by eexists _, _.
  - destruct (PineconeService_init E) as [e|svc]; [by eexists _, _|].
    rewrite bind_unfold. unfold get_world.
    destruct (last _); by eexists _, _.
Qed.

Lemma enhance_empty (messages : list nat) (w : World) :
  enhance "" messages w = (inr (), w).
Proof. reflexivity. Qed.

(** C9.  When the vector store is not configured (making the service
    raises), or the service in use has no index, or its embedding call
    fails or gives nothing, or its query fails or finds no candidate for
    the query of the turn, the retrieval block answers the empty string as
    a normal result: it does not raise, it leaves the messages, the store
    and the log of model calls as they were, the empty context is not
    merged into any message, and the turn goes on exactly as the turn
    without retrieval goes on from there. *)
Theorem retrieval_failure_is_silent (E : Env) (messages : list nat) (w : World) :
  unavailable E w
  ∨ (∃ service, service_of E w = Some service
                ∧ ∀ query, latest_query w messages = Some query →
                           degraded service query) →
  ∃ w', rag_context_of E messages true w = (inr "", w')
        ∧ heap w' = heap w ∧ store w' = store w
        ∧ model_calls w' = model_calls w
        ∧ enhance "" messages w' = (inr (), w')
        ∧ get_completion_with_tools E messages true w
          = complete E messages messages w'.
Proof.
  intros Hcase.
  assert (∃ w', rag_context_of E messages true w = (inr "", w')
                ∧ heap w' = heap w ∧ store w' = store w
                ∧ model_calls w' = model_calls w) as (w' & Hrag & Hh & Hs & Hm).
  { unfold rag_context_of. simpl.
    destruct (bool_decide (messages = [])); simpl; [by exists w|].
    rewrite bind_unfold. unfold get_pinecone_service.
    destruct Hcase as [[Hnone [e He]] | (svc & Hsvc & Hdeg)].
    - rewrite Hnone, He. by exists w.
    - unfold service_of in Hsvc. unfold latest_query in Hdeg.
      destruct (pinecone_service w) as [svc0|] eqn:Hps.
      + injection Hsvc as ->. rewrite bind_unfold. unfold get_world.
        destruct (last _) as [l|]; [|by exists w].
        rewrite (degraded_context svc _ 2000 (Hdeg _ eq_refl)). by exists w.
      + destruct (PineconeService_init E) as [e|svc0]; [done|].
        injection Hsvc as ->. rewrite bind_unfold. unfold get_world.
        change (deref (mkWorld (heap w) (store w) (Some svc) (model_calls w)))
          with (deref w).
        destruct (last _) as [l|]; [|by eexists].
        rewrite (degraded_context svc _ 2000 (Hdeg _ eq_refl)). by eexists. }
  exists w'. split_and!; try done.
  unfold get_completion_with_tools. rewrite bind_unfold, Hrag.
  by rewrite bind_unfold, enhance_empty.
Qed.

(** Without a Pinecone key the turn of scenario C runs unaugmented. *)
Lemma retrieval_failure_is_silent_witness :
  unavailable (demo_env not_configured) (world_of [says User "Where is the gym?"])
  ∧ rag_context_of (demo_env not_configured) [0%nat] true
      (world_of [says User "Where is the gym?"])
    = (inr "", world_of [says User "Where is the gym?"]).
Proof.
  assert (unavailable (demo_env not_configured)
            (world_of [says User "Where is the gym?"])) as Hun.
  { split; [reflexivity|]. by eexists. }
  split; [exact Hun|].
  destruct (retrieval_failure_is_silent (demo_env not_configured) [0%nat]
              (world_of [says User "Where is the gym?"]) (or_introl Hun))
    as (w' & Hrag & _).
  rewrite Hrag. f_equal.
  revert Hrag. vm_compute. by intros [= <-].
Defined.


(** ** Composing the message list *)

Lemma last_formatted (w : World) (init : list nat) (l : nat) (b : bool) :
  last (formatted_messages_of w (init ++ [l]) b) = Some (format_message w l).
Proof.
  unfold formatted_messages_of. rewrite fmap_app, app_assoc. apply last_snoc.
Qed.

(** C6, amended.  For a non-empty augmentation text [A]: when the history
    ends in a user message with content [C], the last message of the
    composed list is that user message with content
    [A + "\n\n" + "User Question: " + C]; when the history does not end
    in a user message (it is empty, or its last message has another role),
    the augmentation is dropped and the composition is the unaugmented
    one. *)
Theorem augmentation_merges_into_final_user_message
    (A : string) (messages : list nat) (w : World) :
  A ≠ "" →
  (∀ init l m,
     messages = init ++ [l] → heap w !! l = Some m → role m = User →
     last (composed A messages w)
     = Some {| cm_role := "user"; cm_content := augmented A (content m);
               cm_tool_calls := None; cm_tool_call_id := None |})
  ∧ ((∀ l, last messages = Some l → role (deref w l) ≠ User) →
     enhance A messages w = (inr (), w)
     ∧ composed A messages w = formatted_messages_of w messages true).
Proof.
  intros HA. apply String.eqb_neq in HA.
  split.
  - intros init l m -> Hl Hrole. unfold composed. rewrite last_formatted.
    assert (deref w l = m) as Hd by (by apply lookup_total_correct).
    unfold enhance. rewrite HA. cbn [negb]. rewrite bind_unfold. unfold get_world.
    rewrite last_snoc, Hd, Hrole. rewrite bool_decide_eq_true_2 by done.
    unfold format_message, set_content, deref. cbn [snd heap].
    rewrite lookup_total_alter_eq, Hl. cbn.
    by rewrite Hrole.
  - intros Hlast.
    assert (enhance A messages w = (inr (), w)) as Hen.
    { unfold enhance. rewrite HA. simpl. rewrite bind_unfold. unfold get_world.
      destruct (last messages) as [l|]; [|done].
      rewrite bool_decide_eq_false_2; [done|]. by apply Hlast. }
    split; [done|]. unfold composed. by rewrite Hen.
Qed.

(** A history of one user message, with a context from the knowledge base. *)
Lemma augmentation_merges_into_final_user_message_witness :
  "CTX" ≠ ""
  ∧ last (composed "CTX" [0%nat] (world_of [says User "When do you open?"]))
    = Some {| cm_role := "user";
              cm_content := augmented "CTX" "When do you open?";
              cm_tool_calls := None; cm_tool_call_id := None |}.
Proof.
  assert ("CTX" ≠ "") as Hne by discriminate.
  split; [exact Hne|].
  exact (proj1 (augmentation_merges_into_final_user_message "CTX" [0%nat]
                  (world_of [says User "When do you open?"]) Hne)
           [] 0%nat (says User "When do you open?") eq_refl eq_refl eq_refl).
Defined.

(** C6 as written fails when the last user message is not the last message:
    after an assistant reply the user's question goes out unaugmented. *)
Lemma augmentation_misses_earlier_user_counterexample :
  ¬ augmentation_reaches_last_user "CTX" [0%nat; 1%nat]
      (world_of [says User "When do you open?"; says Assistant "At six."]).
Proof.
  intros H. specialize (H "When do you open?" eq_refl).
  vm_compute in H. discriminate H.
Qed.


(** ** The orchestrator *)

Lemma enhance_total (A : string) (messages : list nat) (w : World) :
  ∃ h, enhance A messages w
       = (inr (), mkWorld h (store w) (pinecone_service w) (model_calls w)).
Proof.
  unfold enhance. destruct w as [h st ps mc].
  destruct (negb (String.eqb A "")); [|by eexists].
  rewrite bind_unfold. unfold get_world.
  destruct (last messages) as [l|]; [|by eexists].
  destruct (bool_decide _); by eexists.
Qed.

Lemma parse_tool_calls_pure (E : Env) (raw : list RawToolCall) (w : World) :
  ∃ x, mapM (parse_tool_call E) raw w = (x, w).
Proof.
  induction raw as [|tc raw [x IH]]; [by eexists|].
  cbn [mapM]. rewrite bind_unfold. unfold parse_tool_call at 1.
  destruct (json_loads E (raw_arguments tc)); [by eexists|].
  cbn. rewrite bind_unfold, IH. destruct x; by eexists.
Qed.

(** [get_completion] sends exactly one request: the composed list, with the
    catalog attached when tools are enabled. *)
Lemma get_completion_one_call (E : Env) (messages : list nat)
    (use_tools include_system_prompt : bool) (w : World) :
  ∃ x, get_completion E messages use_tools include_system_prompt w
       = (x, logged w
               {| req_messages :=
                    formatted_messages_of w messages include_system_prompt;
                  req_tools := if use_tools then Some AVAILABLE_TOOLS else None |}).
Proof.
  unfold get_completion, rewrap. rewrite bind_unfold. unfold get_world.
  rewrite bind_unfold. unfold create.
  destruct (chat_completions_create E _ _) as [e|resp]; [by eexists|].
  fold (logged w {| req_messages :=
                      formatted_messages_of w messages include_system_prompt;
                    req_tools := if use_tools then Some AVAILABLE_TOOLS else None |}).
  destruct (resp_tool_calls resp) as [|tc raw]; [by eexists|].
  rewrite bind_unfold.
  destruct (parse_tool_calls_pure E (tc :: raw) (logged w
              {| req_messages :=
                   formatted_messages_of w messages include_system_prompt;
                 req_tools := if use_tools then Some AVAILABLE_TOOLS else None |}))
    as [x ->].
  destruct x; by eexists.
Qed.

(** The first loop over the tool calls runs each of them once, in order. *)
Lemma tool_results_run_all (E : Env) (tool_calls : list ToolCall) (w : World) :
  ∃ tool_results,
    mapM (tool_result E) tool_calls w
    = (inr tool_results, set_store w (run_all E tool_calls (store w)))
    ∧ length tool_results = length tool_calls.
Proof.
  revert w. induction tool_calls as [|tc tcs IH]; intros w.
  - exists []. by destruct w.
  - cbn [mapM]. rewrite bind_unfold.
    unfold tool_result at 1. rewrite bind_unfold.
    unfold run_tool, on_store.
    destruct (execute_tool _ _ _ _ (store w)) as [r st1] eqn:Hex.
    cbn. rewrite bind_unfold.
    destruct (IH (set_store w st1))
      as (rs & -> & Hlen).
    eexists (_ :: rs). split; [|cbn; by rewrite Hlen].
    unfold run_all. cbn. by rewrite Hex.
Qed.

(** So does the loop that builds the tool-role messages: a second time. *)
Lemma tool_messages_run_all (E : Env) (tool_calls : list ToolCall)
    (tool_results : list string) (w : World) :
  length tool_results = length tool_calls →
  ∃ tool_messages,
    mapM (tool_message E) (zip tool_calls tool_results) w
    = (inr tool_messages, set_store w (run_all E tool_calls (store w)))
    ∧ cm_tool_call_id <$> tool_messages = Some ∘ tc_id <$> tool_calls.
Proof.
  revert tool_results w.
  induction tool_calls as [|tc tcs IH]; intros [|r rs] w Hlen; try done.
  - exists []. by destruct w.
  - cbn [zip zip_with mapM]. rewrite bind_unfold.
    unfold tool_message at 1. rewrite bind_unfold.
    unfold run_tool, on_store.
    destruct (execute_tool _ _ _ _ (store w)) as [res st1] eqn:Hex.
    cbn. rewrite bind_unfold.
    destruct (IH rs (set_store w st1))
      as (ms & -> & Hids); [by injection Hlen|].
    eexists (_ :: ms). unfold run_all. cbn. rewrite Hex. split; [done|].
    by rewrite <- Hids.
Qed.

Lemma run_all_app (E : Env) (xs ys : list ToolCall) (st : Store) :
  run_all E (xs ++ ys) st = run_all E ys (run_all E xs st).
Proof. unfold run_all. apply foldl_app. Qed.

(** Every tool call of a round is executed twice: the pass leaves the store
    that running the whole list two times leaves.  It ends with one request
    to the model, without the catalog: the system prompt, the history as
    the heap has it, the assistant message with the tool calls, and one
    tool-role message per call with the id of the call. *)
Lemma process_tool_calls_runs_twice (E : Env) (messages : list nat)
    (content : option string) (tool_calls : list ToolCall) (w : World) :
  ∃ tool_messages req2,
    cm_tool_call_id <$> tool_messages = Some ∘ tc_id <$> tool_calls
    ∧ req2 = {| req_messages :=
                  [system_message] ++ (format_message w <$> messages)
                  ++ [assistant_message E content tool_calls] ++ tool_messages;
                req_tools := None |}
    ∧ process_tool_calls E messages content tool_calls w
      = (final_answer (chat_completions_create E (length (model_calls w)) req2),
         logged (set_store w (run_all E (tool_calls ++ tool_calls) (store w))) req2).
Proof.
  unfold process_tool_calls. rewrite bind_unfold.
  destruct (tool_results_run_all E tool_calls w) as (rs & -> & Hlen).
  rewrite bind_unfold. unfold get_world. rewrite bind_unfold.
  destruct (tool_messages_run_all E tool_calls rs
              (set_store w (run_all E tool_calls (store w))) Hlen)
    as (ms & -> & Hids).
  rewrite bind_unfold. unfold create. cbn.
  eexists ms, _. split; [exact Hids|]. split; [reflexivity|].
  rewrite run_all_app. unfold logged, set_store, final_answer. cbn.
  by destruct (chat_completions_create E _ _).
Qed.

(** Dropping the tool calls of an answer the pass has not asked for yet
    does not change the first model call. *)
Lemma get_completion_discarding (E : Env) (k : nat) (messages : list nat)
    (use_tools include_system_prompt : bool) (w : World) :
  length (model_calls w) ≠ k →
  get_completion (discarding E k) messages use_tools include_system_prompt w
  = get_completion E messages use_tools include_system_prompt w.
Proof.
  intros Hk. apply Nat.eqb_neq in Hk.
  unfold get_completion, rewrap. rewrite !bind_unfold. unfold get_world.
  rewrite !bind_unfold. unfold create. cbn. by rewrite Hk.
Qed.

(** The tool round reads nothing but the content of the second answer. *)
Lemma process_tool_calls_discarding (E : Env) (k : nat) (messages : list nat)
    (content : option string) (tool_calls : list ToolCall) (w : World) :
  process_tool_calls (discarding E k) messages content tool_calls w
  = process_tool_calls E messages content tool_calls w.
Proof.
  unfold process_tool_calls. rewrite !bind_unfold.
  change (mapM (tool_result (discarding E k)) tool_calls w)
    with (mapM (tool_result E) tool_calls w).
  destruct (mapM (tool_result E) tool_calls w) as [[e|rs] w1]; [done|].
  rewrite !bind_unfold. unfold get_world. rewrite !bind_unfold.
  change (mapM (tool_message (discarding E k)) (zip tool_calls rs) w1)
    with (mapM (tool_message E) (zip tool_calls rs) w1).
  destruct (mapM (tool_message E) (zip tool_calls rs) w1) as [[e|ms] w2]; [done|].
  rewrite !bind_unfold. unfold create. cbn.
  destruct (Nat.eqb (length (model_calls w2)) k); [|done].
  by destruct (chat_completions_create E _ _).
Qed.

(** C5.  A pass sends one request to the model, with the tool catalog, or
    two; the second goes out without the catalog, and what the pass returns
    is then the content of its answer (or its failure).  Whatever tool
    calls that second answer carries are discarded: with them dropped from
    the answer, the pass returns the same result and leaves the same world,
    booking store included. *)
Theorem at_most_two_model_calls (E : Env) (messages : list nat) (use_rag : bool)
    (w : World) :
  let out := get_completion_with_tools E messages use_rag w in
  let n := length (model_calls w) in
  (∃ req1,
     req_tools req1 = Some AVAILABLE_TOOLS
     ∧ (model_calls out.2 = model_calls w ++ [req1]
        ∨ ∃ req2,
            model_calls out.2 = model_calls w ++ [req1; req2]
            ∧ req_tools req2 = None
            ∧ out.1 = final_answer (chat_completions_create E (S n) req2)))
  ∧ get_completion_with_tools (discarding E (S n)) messages use_rag w = out.
Proof.
  intros out n. subst out n. unfold get_completion_with_tools.
  rewrite !bind_unfold.
  change (rag_context_of (discarding E (S (length (model_calls w)))) messages use_rag w)
    with (rag_context_of E messages use_rag w).
  destruct (rag_context_of_total E messages use_rag w) as (s & p & ->).
  rewrite !bind_unfold.
  destruct (enhance_total s messages
              (mkWorld (heap w) (store w) p (model_calls w))) as (h & ->).
  cbn [store pinecone_service model_calls].
  set (w1 := mkWorld h (store w) p (model_calls w)).
  unfold complete. rewrite !bind_unfold.
  rewrite get_completion_discarding by (cbn; lia).
  destruct (get_completion_one_call E messages true true w1) as (x & ->).
  set (req1 := {| req_messages := formatted_messages_of w1 messages true;
                  req_tools := Some AVAILABLE_TOOLS |}).
  split.
  - exists req1. split; [done|].
    destruct x as [e | [content [[|tc tcs]|]]]; try (by left).
    right.
    destruct (process_tool_calls_runs_twice E messages content (tc :: tcs)
                (logged w1 req1)) as (tms & req2 & _ & Hreq & ->).
    exists req2. cbn. rewrite <- app_assoc. split; [done|].
    split; [by rewrite Hreq|].
    rewrite length_app. cbn. by rewrite Nat.add_1_r.
  - destruct x as [e | [content [[|tc tcs]|]]]; try done.
    apply process_tool_calls_discarding.
Qed.

(** For the model that asks for the booking tool in both rounds, the pass
    stops after the second answer and returns its content. *)
Lemma at_most_two_model_calls_witness :
  let out := get_completion_with_tools (demo_env not_configured) [0%nat] false
               (world_of [says User "Book me a massage tomorrow at 9am"]) in
  length (model_calls out.2) = 2%nat
  ∧ out.1 = inr (Some "Your massage is booked.").
Proof.
  destruct (at_most_two_model_calls (demo_env not_configured) [0%nat] false
              (world_of [says User "Book me a massage tomorrow at 9am"]))
    as [(req1 & _ & [H1 | (req2 & H2 & _ & Hout)]) _].
  - exfalso. revert H1. vm_compute. intros H. discriminate H.
  - cbv zeta. rewrite H2, Hout. split; reflexivity.
Defined.

(** ** Where the code departs from the specification *)

(** C1.  The model asks once for [create_booking]; the pass runs the call
    in the loop that formats the results and again in the loop that builds
    the tool-role messages, so the store, empty before, holds two bookings
    for Ann afterwards. *)
Theorem one_create_booking_request_inserts_two_bookings :
  let w := world_of [says User "Book me a massage tomorrow at 9am"] in
  let out := get_completion_with_tools (demo_env not_configured) [0%nat] false w in
  bookings_db (store w) = []
  ∧ length (resp_tool_calls asks_create_booking) = 1%nat
  ∧ (bookings_db (store out.2)).*1 = ["uuid-0"; "uuid-3"]
  ∧ customer_name <$> dict_values (bookings_db (store out.2))
    = [VStr "Ann"; VStr "Ann"]
  ∧ store out.2 = run_all (demo_env not_configured)
                    [mkToolCall "call_1" "create_booking" ann_arguments;
                     mkToolCall "call_1" "create_booking" ann_arguments]
                    empty_store.
Proof. vm_compute. repeat split. Qed.

(** C2.  With a context retrieved for the question ["hi"], the pass writes
    the augmented text into the caller's message object, and the history of
    the second model call carries it too. *)
Theorem augmented_text_leaks_into_history :
  let w := world_of [says User "hi"] in
  let out := get_completion_with_tools (demo_env (inr one_chunk_service))
               [0%nat] true w in
  let leaked := augmented (CONTEXT_HEADER +:+ "Open 24/7") "hi" in
  content (deref w 0) = "hi"
  ∧ content (deref out.2 0) = leaked
  ∧ (λ req, (cm_role <$> req_messages req, req_tools req)) <$> model_calls out.2
    = [(["system"; "user"], Some AVAILABLE_TOOLS);
       (["system"; "user"; "assistant"; "tool"], None)]
  ∧ (λ req, cm_content <$> req_messages req !! 1%nat) <$> model_calls out.2
    = [Some leaked; Some leaked].
Proof. vm_compute. repeat split. Qed.

(** C4.  For a history that starts with a system message the first model
    call gets it once, as [get_completion] checks for it; the list of the
    second call puts the default system prompt in front of it all the same
    and so begins with two system messages. *)
Theorem second_call_duplicates_system_message :
  let w := world_of [says System "Be brief."; says User "Book me a massage"] in
  let out := get_completion_with_tools (demo_env not_configured)
               [0%nat; 1%nat] false w in
  (λ req, cm_role <$> req_messages req) <$> model_calls out.2
  = [["system"; "user"];
     ["system"; "system"; "user"; "assistant"; "tool"]]
  ∧ (λ req, cm_content <$> take 2 (req_messages req)) <$> model_calls out.2
    = [["Be brief."; "Book me a massage"]; [SYSTEM_PROMPT; "Be brief."]].
Proof. vm_compute. repeat split. Qed.

(** The defect behind C2 in general: whenever the merge applies, it is the
    caller's own message object that is rewritten. *)
Lemma enhance_writes_callers_message (A : string) (init : list nat) (l : nat)
    (m : Message) (w : World) :
  A ≠ "" → heap w !! l = Some m → role m = User →
  heap (enhance A (init ++ [l]) w).2 !! l
  = Some (mkMessage (msg_id m) User (augmented A (content m)) (msg_created_at m)).
Proof.
  intros HA Hl Hrole. apply String.eqb_neq in HA.
  assert (deref w l = m) as Hd by (by apply lookup_total_correct).
  unfold enhance. rewrite HA. cbn [negb]. rewrite bind_unfold. unfold get_world.
  rewrite last_snoc, Hd, Hrole. rewrite bool_decide_eq_true_2 by done.
  unfold set_content. cbn [snd heap]. rewrite lookup_alter_eq, Hl. cbn.
  by rewrite Hrole.
Qed.

(** The defect behind C4 in general: the list of the second call starts
    with the default system prompt whatever the history starts with, so a
    history that starts with a system message gives two. *)
Lemma process_tool_calls_prepends_system (E : Env) (l : nat) (rest : list nat)
    (content : option string) (tool_calls : list ToolCall) (w : World) :
  role (deref w l) = System →
  ∃ req2 tail,
    model_calls (process_tool_calls E (l :: rest) content tool_calls w).2
    = model_calls w ++ [req2]
    ∧ req_messages req2 = system_message :: format_message w l :: tail
    ∧ cm_role system_message = "system"
    ∧ cm_role (format_message w l) = "system".
Proof.
  intros Hrole.
  destruct (process_tool_calls_runs_twice E (l :: rest) content tool_calls w)
    as (tms & req2 & _ & Hreq & ->).
  exists req2. eexists. split; [done|]. split; [by rewrite Hreq|].
  split; [done|]. unfold format_message. cbn. by rewrite Hrole.
Qed.

(** The first call never gets a second system message in front. *)
Lemma first_call_keeps_one_system_message (w : World) (messages : list nat) :
  lacks_system w messages = false →
  formatted_messages_of w messages true = format_message w <$> messages.
Proof. intros H. unfold formatted_messages_of. by rewrite H. Qed.


(** * Further properties of the code *)

(** ** The tool executor *)

Lemma dict_set_keys_prefix {V : Type} (d : list (string * V)) (k : string) (v : V) :
  d.*1 `prefix_of` (dict_set k v d).*1.
Proof.
  destruct (dict_get k d) as [v0|] eqn:Hget.
  - rewrite dict_set_keys by (by rewrite Hget). done.
  - rewrite dict_set_fresh by done. rewrite fmap_app. by apply prefix_app_r.
Qed.

Lemma dict_set_NoDup {V : Type} (d : list (string * V)) (k : string) (v : V) :
  NoDup d.*1 → NoDup (dict_set k v d).*1.
Proof.
  intros Hnd. destruct (dict_get k d) as [v0|] eqn:Hget.
  - rewrite dict_set_keys by (by rewrite Hget). done.
  - rewrite dict_set_fresh by done. rewrite fmap_app. csimpl.
    apply NoDup_app. split; [done|]. split.
    + intros x Hx Hk. apply list_elem_of_singleton in Hk as ->.
      by apply dict_get_None_keys in Hget.
    + apply NoDup_singleton.
Qed.

Lemma keys_present_false (required : list string) (arguments : gmap string value)
    (k : string) :
  k ∈ required → arguments !! k = None → keys_present required arguments = false.
Proof.
  intros Hin Hnone. unfold keys_present.
  apply not_true_is_false. intros Hall.
  rewrite forallb_forall in Hall. specialize (Hall k).
  rewrite <- list_elem_of_In in Hall. specialize (Hall Hin).
  apply bool_decide_eq_true in Hall. rewrite Hnone in Hall. by destruct Hall.
Qed.

Lemma keys_within_false (allowed : list string) (arguments : gmap string value)
    (k : string) :
  is_Some (arguments !! k) → k ∉ allowed → keys_within allowed arguments = false.
Proof.
  intros [v Hv] Hout. unfold keys_within.
  apply not_true_is_false. intros Hall.
  rewrite forallb_forall in Hall. specialize (Hall (k, v)).
  rewrite <- list_elem_of_In, elem_of_map_to_list in Hall. specialize (Hall Hv).
  by apply bool_decide_eq_true in Hall.
Qed.

(** X1.  A call the dispatcher cannot place is answered, not raised: the
    result carries only an error text, ["Unknown tool: ..."] for a name
    that is not a tool and ["Tool execution failed: ..."] for arguments
    that do not fit, and the store is as it was. *)
Theorem execute_tool_rejects_ill_fitting_calls (C : Clock)
    (type_error : string → gmap string value → string)
    (tool_name : string) (arguments : gmap string value) (st : Store) :
  ill_fitting tool_name arguments →
  ∃ e, execute_tool C type_error tool_name arguments st = (error_result e, st)
       ∧ (e = "Unknown tool: " +:+ tool_name
          ∨ e = "Tool execution failed: " +:+ type_error tool_name arguments).
Proof.
  unfold ill_fitting, execute_tool, call_tool, CREATE_REQUIRED, CREATE_PARAMS,
    GET_PARAMS.
  intros [Hname | [[-> (k & Hk & Hnone)] | [[-> (k & Hk & Hout)]
           | [[-> Hnone] | [-> (k & Hk & Hout)]]]]].
  - rewrite bool_decide_eq_false_2 by done. eexists. split; [done | by left].
  - rewrite bool_decide_eq_true_2 by (unfold tool_map; rewrite !elem_of_cons; tauto).
    change (String.eqb "create_booking" "create_booking") with true. cbv iota.
    rewrite (keys_present_false _ _ k Hk Hnone), andb_false_r.
    eexists. split; [done | by right].
  - rewrite bool_decide_eq_true_2 by (unfold tool_map; rewrite !elem_of_cons; tauto).
    change (String.eqb "create_booking" "create_booking") with true. cbv iota.
    rewrite (keys_within_false _ _ k Hk Hout).
    eexists. split; [done | by right].
  - rewrite bool_decide_eq_true_2 by (unfold tool_map; rewrite !elem_of_cons; tauto).
    change (String.eqb "update_booking" "create_booking") with false.
    change (String.eqb "update_booking" "update_booking") with true. cbv iota.
    rewrite (keys_present_false ["booking_id"] _ "booking_id") by
      (done || by apply list_elem_of_singleton).
    eexists. split; [done | by right].
  - rewrite bool_decide_eq_true_2 by (unfold tool_map; rewrite !elem_of_cons; tauto).
    change (String.eqb "get_booking" "create_booking") with false.
    change (String.eqb "get_booking" "update_booking") with false.
    change (String.eqb "get_booking" "get_booking") with true. cbv iota.
    rewrite (keys_within_false _ _ k Hk Hout).
    eexists. split; [done | by right].
Qed.

(** The model names a tool that does not exist. *)
Lemma execute_tool_rejects_ill_fitting_calls_witness :
  ill_fitting "cancel_booking" ann_arguments
  ∧ execute_tool demo_clock (λ _ _, "") "cancel_booking" ann_arguments ann_store
    = (error_result "Unknown tool: cancel_booking", ann_store).
Proof.
  assert (ill_fitting "cancel_booking" ann_arguments) as Hill.
  { left. unfold tool_map. rewrite !not_elem_of_cons. repeat split; try done.
    apply not_elem_of_nil. }
  split; [exact Hill|].
  destruct (execute_tool_rejects_ill_fitting_calls demo_clock (λ _ _, "")
              "cancel_booking" ann_arguments ann_store Hill) as (e & Heq & _).
  rewrite Heq. revert Heq. vm_compute. by intros [= <-].
Defined.


Lemma create_booking_step (C : Clock) (a1 a2 a3 a4 a5 a6 a7 : value) (st : Store) :
  store_step st (create_booking C a1 a2 a3 a4 a5 a6 a7 st).2.
Proof. right. eexists _, _. split; [reflexivity|]. by left. Qed.

Lemma update_booking_step (C : Clock) (id : value) (kwargs : gmap string value)
    (st : Store) :
  store_step st (update_booking C id kwargs st).2.
Proof.
  unfold update_booking.
  destruct (db_lookup id (bookings_db st)) as [[k b]|] eqn:Hlook; [|by left].
  apply db_lookup_Some in Hlook as [-> Hget].
  pose proof (update_loop kwargs b) as Hloop. cbv zeta in Hloop.
  destruct (foldl (update_step kwargs) (b, []) UPDATABLE) as [b1 fields].
  destruct Hloop as (_ & Hid & _).
  right. eexists _, _. split; [reflexivity|]. right. by exists b.
Qed.

Lemma get_booking_step (C : Clock) (id e d s : value) (st : Store) :
  store_step st (get_booking C id e d s st).2.
Proof.
  unfold get_booking. destruct (truthy id).
  - destruct (db_lookup id (bookings_db st)) as [[k b]|]; by left.
  - destruct (List.filter _ _); [|by left].
    destruct (bookings_db st) eqn:Hdb; [|by left].
    right. eexists _, _. cbn. rewrite Hdb. split; [reflexivity|]. by left.
Qed.

Lemma execute_tool_step (C : Clock)
    (type_error : string → gmap string value → string)
    (tool_name : string) (arguments : gmap string value) (st : Store) :
  store_step st (execute_tool C type_error tool_name arguments st).2.
Proof.
  unfold execute_tool. destruct (bool_decide _); [|by left].
  destruct (call_tool C tool_name arguments st) as [p|] eqn:Hcall; [|by left].
  unfold call_tool in Hcall.
  repeat match type of Hcall with
         | context [if ?c then _ else _] => destruct c; try discriminate Hcall
         end;
    injection Hcall as <-.
  - apply create_booking_step.
  - apply update_booking_step.
  - apply get_booking_step.
Qed.

(** X2.  No tool call removes or reorders a booking: the keys of the store
    before the call are a prefix of its keys after it. *)
Theorem execute_tool_never_deletes (C : Clock)
    (type_error : string → gmap string value → string)
    (tool_name : string) (arguments : gmap string value) (st : Store) :
  (bookings_db st).*1
  `prefix_of` (bookings_db (execute_tool C type_error tool_name arguments st).2).*1.
Proof.
  destruct (execute_tool_step C type_error tool_name arguments st)
    as [-> | (k & b & -> & _)]; [done|].
  apply dict_set_keys_prefix.
Qed.

(** X3.  The tools keep the store well formed: if the keys are distinct and
    every booking sits under its own id before a call, the same holds after
    it, whatever the tool and its arguments. *)
Theorem execute_tool_keeps_store_wf (C : Clock)
    (type_error : string → gmap string value → string)
    (tool_name : string) (arguments : gmap string value) (st : Store) :
  store_wf st →
  store_wf (execute_tool C type_error tool_name arguments st).2.
Proof.
  intros [Hnd Hkeyed]. unfold store_wf.
  destruct (execute_tool_step C type_error tool_name arguments st)
    as [-> | (k & b & -> & Hid)]; [done|].
  split; [by apply dict_set_NoDup|].
  apply dict_set_Forall; [|done]. simpl.
  destruct Hid as [Hid | (b0 & Hget & Hid)]; [done|].
  rewrite Hid. apply dict_get_Some_elem in Hget.
  rewrite Forall_forall in Hkeyed. by apply (Hkeyed (k, b0)).
Qed.

(** The empty store is well formed, and so is the store after Ann's
    booking. *)
Lemma execute_tool_keeps_store_wf_witness :
  store_wf empty_store
  ∧ store_wf (execute_tool demo_clock (λ _ _, "") "create_booking"
                ann_arguments empty_store).2.
Proof.
  assert (store_wf empty_store) as Hwf.
  { split; [apply NoDup_nil_2 | apply Forall_nil_2]. }
  split; [exact Hwf|].
  exact (execute_tool_keeps_store_wf demo_clock (λ _ _, "") "create_booking"
           ann_arguments empty_store Hwf).
Defined.


Lemma truthy_str (s : string) : truthy (VStr s) = true ↔ s ≠ "".
Proof.
  simpl. rewrite negb_true_iff. apply String.eqb_neq.
Qed.

(** X4.  A booking can be read back by its id right after it is made: if
    the id drawn is not empty, [get_booking] with that id answers the very
    booking [create_booking] returned, whatever filters come with it, and
    leaves the store as [create_booking] left it. *)
Theorem create_then_get_booking (C : Clock) (a1 a2 a3 a4 a5 a6 a7 : value)
    (e d s : value) (st : Store) :
  uuid4 C (draws st) ≠ "" →
  let created := create_booking C a1 a2 a3 a4 a5 a6 a7 st in
  let read := get_booking C (VStr (uuid4 C (draws st))) e d s created.2 in
  read.2 = created.2
  ∧ success read.1 = Some true
  ∧ error read.1 = None
  ∧ is_Some (booking read.1)
  ∧ booking read.1 = booking created.1.
Proof.
  intros Hid. apply truthy_str in Hid. cbn zeta.
  unfold get_booking. rewrite Hid. unfold db_lookup, create_booking.
  cbn [snd fst bookings_db]. rewrite dict_get_set_eq. cbn. by eauto.
Qed.

(** Ann's booking is read back under the id it was given. *)
Lemma create_then_get_booking_witness :
  uuid4 demo_clock (draws empty_store) ≠ ""
  ∧ customer_name
      <$> booking (get_booking demo_clock (VStr "uuid-0") VNone VNone (VStr "all")
                     ann_store).1
    = Some (VStr "Ann").
Proof.
  assert (uuid4 demo_clock (draws empty_store) ≠ "") as Hid by discriminate.
  split; [exact Hid|].
  destruct (create_then_get_booking demo_clock (VStr "massage") (VStr "2024-06-01")
              (VStr "09:00") (VStr "Ann") (VStr "ann@x.com") (VInt 60) (VStr "")
              VNone VNone (VStr "all") empty_store Hid)
    as (_ & _ & _ & _ & Hb).
  change (get_booking demo_clock (VStr "uuid-0") VNone VNone (VStr "all") ann_store)
    with (get_booking demo_clock (VStr (uuid4 demo_clock (draws empty_store)))
            VNone VNone (VStr "all")
            (create_booking demo_clock (VStr "massage") (VStr "2024-06-01")
               (VStr "09:00") (VStr "Ann") (VStr "ann@x.com") (VInt 60) (VStr "")
               empty_store).2).
  rewrite Hb. reflexivity.
Defined.

(** X5.  With a [booking_id] given, [get_booking] is a read on every store,
    the empty one included: the store is unchanged, the filters are not
    looked at, and the answer is the booking under that id or a not-found
    error. *)
Theorem get_booking_by_id_is_a_read (C : Clock) (id e d s : value) (st : Store) :
  truthy id = true →
  (get_booking C id e d s st).2 = st
  ∧ get_booking C id e d s st = get_booking C id VNone VNone (VStr "all") st
  ∧ match db_lookup id (bookings_db st) with
    | Some (_, b) =>
        success (get_booking C id e d s st).1 = Some true
        ∧ booking (get_booking C id e d s st).1 = Some b
    | None =>
        success (get_booking C id e d s st).1 = Some false
        ∧ error (get_booking C id e d s st).1
          = Some ("Booking " +:+ py_str id +:+ " not found")
    end.
Proof.
  intros Hid. unfold get_booking. rewrite Hid.
  by destruct (db_lookup id (bookings_db st)) as [[k b]|].
Qed.

(** An id that is not in the empty store: no sample booking is made. *)
Lemma get_booking_by_id_is_a_read_witness :
  truthy (VStr "uuid-9") = true
  ∧ get_booking demo_clock (VStr "uuid-9") VNone VNone (VStr "all") empty_store
    = ({| success := Some false; error := Some "Booking uuid-9 not found";
          res_booking_id := None; message := None; booking := None;
          count := None; bookings := None |}, empty_store).
Proof.
  split; [reflexivity|].
  pose proof (get_booking_by_id_is_a_read demo_clock (VStr "uuid-9") VNone VNone
                (VStr "all") empty_store eq_refl) as (Hst & _ & Hr).
  cbn [db_lookup dict_get bookings_db empty_store fmap option_fmap option_map] in Hr.
  destruct Hr as [Hs He].
  destruct (get_booking demo_clock (VStr "uuid-9") VNone VNone (VStr "all") empty_store)
    as [r st'] eqn:Heq.
  revert Heq. vm_compute. by intros [= <- <-].
Defined.


Lemma update_loop_ext (kw1 kw2 : gmap string value) (fs : list string)
    (acc : Booking * list string) :
  (∀ f, f ∈ fs → supplied kw1 f = supplied kw2 f) →
  foldl (update_step kw1) acc fs = foldl (update_step kw2) acc fs.
Proof.
  revert acc. induction fs as [|f fs IH]; intros acc Hext; [done|].
  simpl. unfold update_step at 2 4.
  rewrite (Hext f) by (apply elem_of_cons; by left).
  apply IH. intros f' Hf'. apply Hext, elem_of_cons. by right.
Qed.

(** X6.  [update_booking] looks at the five updatable keywords only: any
    other keyword in the call changes neither the answer nor the store. *)
Theorem update_booking_ignores_other_keywords (C : Clock) (id : value)
    (kwargs : gmap string value) (k : string) (v : value) (st : Store) :
  k ∉ UPDATABLE →
  update_booking C id (<[k:=v]> kwargs) st = update_booking C id kwargs st.
Proof.
  intros Hk. unfold update_booking.
  destruct (db_lookup id (bookings_db st)) as [[key b]|]; [|done].
  rewrite (update_loop_ext (<[k:=v]> kwargs) kwargs); [done|].
  intros f Hf. unfold supplied. rewrite lookup_insert_ne; [done|].
  intros ->. by apply Hk.
Qed.

(** Renaming the customer through [update_booking] does nothing. *)
Lemma update_booking_ignores_other_keywords_witness :
  ("customer_name" ∉ UPDATABLE)
  ∧ update_booking demo_clock (VStr "uuid-0")
      (<["customer_name" := VStr "Bob"]> ∅) ann_store
    = update_booking demo_clock (VStr "uuid-0") ∅ ann_store.
Proof.
  assert ("customer_name" ∉ UPDATABLE) as Hk.
  { unfold UPDATABLE. rewrite !not_elem_of_cons. repeat split; try done.
    apply not_elem_of_nil. }
  split; [exact Hk|].
  exact (update_booking_ignores_other_keywords demo_clock (VStr "uuid-0") ∅
           "customer_name" (VStr "Bob") ann_store Hk).
Defined.

Lemma update_loop_fields (kwargs : gmap string value) (fs : list string)
    (b : Booking) (acc : list string) :
  (foldl (update_step kwargs) (b, acc) fs).2
  = acc ++ filter (λ f, is_Some (supplied kwargs f)) fs.
Proof.
  revert b acc. induction fs as [|f fs IH]; intros b acc; cbn [foldl].
  - by rewrite filter_nil, app_nil_r.
  - rewrite filter_cons. unfold update_step at 2.
    destruct (supplied kwargs f) as [v|] eqn:Hs; cbn [fst snd].
    + rewrite IH, decide_True by (by eexists). by rewrite <- app_assoc.
    + rewrite IH, decide_False; [done|]. by intros [? ?].
Qed.

(** X7.  The message of a successful update names exactly the fields that
    were supplied, in the fixed order date, time, duration_minutes, status,
    notes, whatever order the keywords came in. *)
Theorem update_booking_message (C : Clock) (id : value)
    (kwargs : gmap string value) (st : Store) :
  is_Some (db_lookup id (bookings_db st)) →
  message (update_booking C id kwargs st).1
  = Some ("Booking updated successfully. Updated fields: "
          +:+ join ", " (supplied_fields kwargs)).
Proof.
  intros [[k b] Hlook]. unfold update_booking. rewrite Hlook.
  pose proof (update_loop_fields kwargs UPDATABLE b []) as Hfields.
  destruct (foldl (update_step kwargs) (b, []) UPDATABLE) as [b1 fields].
  simpl in *. by rewrite Hfields.
Qed.

(** Notes and date are supplied, notes first: the message says date, notes. *)
Lemma update_booking_message_witness :
  is_Some (db_lookup (VStr "uuid-0") (bookings_db ann_store))
  ∧ message (update_booking demo_clock (VStr "uuid-0")
               (<["notes" := VStr "bring a towel"]>
                  (<["date" := VStr "2024-06-02"]> ∅)) ann_store).1
    = Some "Booking updated successfully. Updated fields: date, notes".
Proof.
  assert (is_Some (db_lookup (VStr "uuid-0") (bookings_db ann_store))) as Hk
    by (by eexists).
  split; [exact Hk|].
  rewrite (update_booking_message demo_clock (VStr "uuid-0") _ ann_store Hk).
  reflexivity.
Defined.

(** X8.  An update can be read back: after a successful [update_booking]
    under a non-empty id, [get_booking] with that id answers the booking
    the update returned. *)
Theorem update_then_get_booking (C : Clock) (k : string)
    (kwargs : gmap string value) (e d s : value) (st : Store) :
  k ≠ "" →
  is_Some (dict_get k (bookings_db st)) →
  let updated := update_booking C (VStr k) kwargs st in
  let read := get_booking C (VStr k) e d s updated.2 in
  success updated.1 = Some true
  ∧ read.2 = updated.2
  ∧ success read.1 = Some true
  ∧ is_Some (booking read.1)
  ∧ booking read.1 = booking updated.1.
Proof.
  intros Hk [b Hget]. apply truthy_str in Hk. cbn zeta.
  unfold get_booking. rewrite Hk. unfold update_booking, db_lookup.
  rewrite Hget. cbn [fmap option_fmap option_map].
  destruct (foldl (update_step kwargs) (b, []) UPDATABLE) as [b1 fields].
  cbn [snd fst bookings_db]. rewrite dict_get_set_eq. cbn. by eauto.
Qed.

(** Ann's booking is cancelled and read back as cancelled. *)
Lemma update_then_get_booking_witness :
  "uuid-0" ≠ ""
  ∧ is_Some (dict_get "uuid-0" (bookings_db ann_store))
  ∧ status
      <$> booking (get_booking demo_clock (VStr "uuid-0") VNone VNone (VStr "all")
                     (update_booking demo_clock (VStr "uuid-0")
                        {["status" := VStr "cancelled"]} ann_store).2).1
    = Some (VStr "cancelled").
Proof.
  assert ("uuid-0" ≠ "") as Hk by discriminate.
  assert (is_Some (dict_get "uuid-0" (bookings_db ann_store))) as Hin
    by (by eexists).
  split; [exact Hk|]. split; [exact Hin|].
  destruct (update_then_get_booking demo_clock "uuid-0"
              {["status" := VStr "cancelled"]} VNone VNone (VStr "all")
              ann_store Hk Hin) as (_ & _ & _ & _ & ->).
  reflexivity.
Defined.


Lemma filter_nil_Forall {A : Type} (P : A → Prop) `{!∀ x, Decision (P x)}
    (l : list A) :
  filter P l = [] ↔ Forall (λ x, ¬ P x) l.
Proof.
  induction l as [|x l IH]; [by rewrite filter_nil|].
  rewrite filter_cons, Forall_cons. destruct (decide (P x)) as [Hx|Hx].
  - split; [done | by intros [? _]].
  - rewrite IH. split; [by split | by intros [_ ?]].
Qed.

(** X9.  Without a [booking_id], [get_booking] reports zero bookings exactly
    when the store holds bookings and none of them matches the filters; on
    an empty store it never reports zero. *)
Theorem get_booking_reports_zero (C : Clock) (id e d s : value) (st : Store) :
  truthy id = false →
  (count (get_booking C id e d s st).1 = Some 0%nat
   ↔ bookings_db st ≠ []
     ∧ Forall (λ b, ¬ matches_filters e d s b) (dict_values (bookings_db st))).
Proof.
  intros Hid. unfold get_booking. rewrite Hid, filter_booking_matches.
  pose proof (filter_nil_Forall (matches_filters e d s)
                (dict_values (bookings_db st))) as Hnil.
  destruct (filter (matches_filters e d s) (dict_values (bookings_db st)))
    as [|b bs].
  - destruct (bookings_db st) as [|kb db]; cbn [fst count listing length].
    + split; [done | by intros [? _]].
    + split; [|done]. intros _. split; [done | by apply Hnil].
  - cbn [fst count listing length]. split; [done|].
    intros [_ HF]. by apply Hnil in HF.
Qed.

(** Ann has a booking, but not on the day asked for. *)
Lemma get_booking_reports_zero_witness :
  truthy VNone = false
  ∧ count (get_booking demo_clock VNone VNone (VStr "2024-07-07") (VStr "all")
             ann_store).1 = Some 0%nat.
Proof.
  split; [reflexivity|].
  apply (get_booking_reports_zero demo_clock VNone VNone (VStr "2024-07-07")
           (VStr "all") ann_store eq_refl).
  split; [by vm_compute|].
  apply Forall_cons. split; [|apply Forall_nil_2].
  intros (_ & Hdate & _). specialize (Hdate eq_refl). by vm_compute in Hdate.
Defined.

Lemma booking_matches_no_filter (e d : value) (b : Booking) :
  truthy e = false → truthy d = false →
  booking_matches e d (VStr "all") b = true.
Proof. intros He Hd. unfold booking_matches. by rewrite He, Hd. Qed.

Lemma filter_all {A : Type} (f : A → bool) (l : list A) :
  (∀ x, f x = true) → List.filter f l = l.
Proof.
  intros Hf. induction l as [|x l IH]; [done|]. simpl. by rewrite Hf, IH.
Qed.

(** X10.  On a store that holds bookings, [get_booking] with no id, no
    e-mail, no date and the status ["all"] returns every booking of the
    store, in store order, and the count is the size of the store. *)
Theorem get_booking_without_filters (C : Clock) (id e d : value) (st : Store) :
  truthy id = false → truthy e = false → truthy d = false →
  bookings_db st ≠ [] →
  get_booking C id e d (VStr "all") st
  = (listing (dict_values (bookings_db st)), st)
  ∧ count (get_booking C id e d (VStr "all") st).1
    = Some (length (bookings_db st)).
Proof.
  intros Hid He Hd Hne.
  assert (get_booking C id e d (VStr "all") st
          = (listing (dict_values (bookings_db st)), st)) as Heq.
  { unfold get_booking. rewrite Hid.
    rewrite filter_all by (intros b; by apply booking_matches_no_filter).
    destruct (bookings_db st) as [|kb db]; [done|]. done. }
  split; [done|]. rewrite Heq. cbn. unfold dict_values. by rewrite length_fmap.
Qed.

(** Listing the store that holds Ann's booking. *)
Lemma get_booking_without_filters_witness :
  truthy VNone = false
  ∧ bookings_db ann_store ≠ []
  ∧ count (get_booking demo_clock VNone VNone VNone (VStr "all") ann_store).1
    = Some 1%nat.
Proof.
  assert (bookings_db ann_store ≠ []) as Hne by (vm_compute; discriminate).
  split; [reflexivity|]. split; [exact Hne|].
  destruct (get_booking_without_filters demo_clock VNone VNone VNone ann_store
              eq_refl eq_refl eq_refl Hne) as [_ ->].
  reflexivity.
Defined.

(** ** Rendering tool results *)

Lemma format_create_booking (d1 d2 : Result → string) (C : Clock)
    (a1 a2 a3 a4 a5 a6 a7 : value) (st : Store) :
  format_tool_response d1 "create_booking" (create_booking C a1 a2 a3 a4 a5 a6 a7 st).1
  = format_tool_response d2 "create_booking" (create_booking C a1 a2 a3 a4 a5 a6 a7 st).1.
Proof. reflexivity. Qed.

Lemma format_update_booking (d1 d2 : Result → string) (C : Clock) (id : value)
    (kwargs : gmap string value) (st : Store) :
  format_tool_response d1 "update_booking" (update_booking C id kwargs st).1
  = format_tool_response d2 "update_booking" (update_booking C id kwargs st).1.
Proof.
  unfold update_booking.
  destruct (db_lookup id (bookings_db st)) as [[k b]|]; [|reflexivity].
  by destruct (foldl (update_step kwargs) (b, []) UPDATABLE).
Qed.

Lemma format_get_booking (d1 d2 : Result → string) (C : Clock) (id e d s : value)
    (st : Store) :
  format_tool_response d1 "get_booking" (get_booking C id e d s st).1
  = format_tool_response d2 "get_booking" (get_booking C id e d s st).1.
Proof.
  unfold get_booking. destruct (truthy id).
  - by destruct (db_lookup id (bookings_db st)) as [[k b]|].
  - destruct (List.filter _ _); [|reflexivity].
    by destruct (bookings_db st).
Qed.

(** X11.  The JSON fallback of [format_tool_response] is never reached for
    a result the executor produced under the same tool name: the rendering
    does not depend on how the result would be dumped. *)
Theorem format_tool_response_needs_no_fallback (C : Clock)
    (type_error : string → gmap string value → string)
    (dumps1 dumps2 : Result → string)
    (tool_name : string) (arguments : gmap string value) (st : Store) :
  format_tool_response dumps1 tool_name
    (execute_tool C type_error tool_name arguments st).1
  = format_tool_response dumps2 tool_name
      (execute_tool C type_error tool_name arguments st).1.
Proof.
  unfold execute_tool. destruct (bool_decide _); [|reflexivity].
  destruct (call_tool C tool_name arguments st) as [p|] eqn:Hcall; [|reflexivity].
  unfold call_tool in Hcall.
  destruct (String.eqb tool_name "create_booking") eqn:H1.
  { apply String.eqb_eq in H1 as ->.
    destruct (_ && _); [|done]. injection Hcall as <-.
    apply format_create_booking. }
  destruct (String.eqb tool_name "update_booking") eqn:H2.
  { apply String.eqb_eq in H2 as ->.
    destruct (_ && _); [|done]. injection Hcall as <-.
    apply format_update_booking. }
  destruct (String.eqb tool_name "get_booking") eqn:H3; [|done].
  apply String.eqb_eq in H3 as ->.
  destruct (keys_within _ _); [|done]. injection Hcall as <-.
  apply format_get_booking.
Qed.


Lemma failed_result (tool_name : string) (r : Result) (e : string) :
  error r = Some e → success r ≠ Some true → succeeded_or_failed tool_name r.
Proof.
  intros He Hs. right. exists e. split; [done|]. split; [done|].
  intros dumps. unfold format_tool_response. by rewrite He.
Qed.

(** X12.  Every answer of the executor is one of two kinds: a success
    without an error text, or a failure with an error text that is rendered
    as ["[Tool Error: ...]"].  No answer is both, and none is neither. *)
Theorem execute_tool_succeeds_or_fails (C : Clock)
    (type_error : string → gmap string value → string)
    (tool_name : string) (arguments : gmap string value) (st : Store) :
  succeeded_or_failed tool_name
    (execute_tool C type_error tool_name arguments st).1.
Proof.
  unfold execute_tool.
  destruct (bool_decide _); [|by eapply failed_result].
  destruct (call_tool C tool_name arguments st) as [p|] eqn:Hcall;
    [|by eapply failed_result].
  unfold call_tool in Hcall.
  repeat match type of Hcall with
         | context [if ?c then _ else _] => destruct c; try discriminate Hcall
         end;
    injection Hcall as <-.
  - by left.
  - unfold update_booking.
    destruct (db_lookup _ _) as [[k b]|]; [|by eapply failed_result].
    destruct (foldl _ _ _). by left.
  - unfold get_booking. destruct (truthy _).
    + destruct (db_lookup _ _) as [[k b]|]; [by left | by eapply failed_result].
    + destruct (List.filter _ _); [|by left].
      destruct (bookings_db st); by left.
Qed.


(** ** The retrieval gateway, further *)

Lemma total_len_nonneg (parts : list string) : (0 ≤ total_len parts)%Z.
Proof.
  unfold total_len. induction parts as [|p parts IH]; simpl; [done|].
  pose proof (len_nonneg p). lia.
Qed.

Lemma greedy_mono (L L' : Z) (texts : list string) (tot : Z) :
  (L ≤ L')%Z → greedy L texts tot `prefix_of` greedy L' texts tot.
Proof.
  intros HL. revert tot. induction texts as [|t texts IH]; intros tot; simpl.
  - done.
  - destruct (tot + len t >? L)%Z eqn:H1; [apply prefix_nil|].
    rewrite Z.gtb_ltb in H1. apply Z.ltb_ge in H1.
    destruct (tot + len t >? L')%Z eqn:H2.
    + rewrite Z.gtb_ltb in H2. apply Z.ltb_lt in H2. lia.
    + by apply prefix_cons.
Qed.

Lemma greedy_all (L : Z) (texts : list string) (tot : Z) :
  (tot + total_len texts ≤ L)%Z → greedy L texts tot = texts.
Proof.
  revert tot. induction texts as [|t texts IH]; intros tot; [done|].
  change (total_len (t :: texts)) with (len t + total_len texts)%Z.
  intros Hfit. simpl. pose proof (total_len_nonneg texts).
  destruct (tot + len t >? L)%Z eqn:H1.
  - rewrite Z.gtb_ltb in H1. apply Z.ltb_lt in H1. lia.
  - f_equal. apply IH. lia.
Qed.

(** X13.  A larger budget never loses a chunk: the chunks taken under
    [L] are a prefix of the chunks taken under any [L'] above it. *)
Theorem included_parts_monotone (documents : list Document) (L L' : Z) :
  (L ≤ L')%Z →
  included_parts documents L `prefix_of` included_parts documents L'.
Proof.
  intros HL. unfold included_parts. rewrite !accumulate_greedy, !app_nil_l.
  by apply greedy_mono.
Qed.

(** Two chunks of five characters: a budget of 5 takes one, 10 takes both. *)
Lemma included_parts_monotone_witness :
  (5 ≤ 10)%Z
  ∧ included_parts [chunk "aaaaa" ""; chunk "bbbbb" ""] 5
    `prefix_of` included_parts [chunk "aaaaa" ""; chunk "bbbbb" ""] 10
  ∧ included_parts [chunk "aaaaa" ""; chunk "bbbbb" ""] 5 = ["aaaaa"]
  ∧ included_parts [chunk "aaaaa" ""; chunk "bbbbb" ""] 10 = ["aaaaa"; "bbbbb"].
Proof.
  assert (5 ≤ 10)%Z as HL by lia.
  split; [exact HL|]. split; [|split; reflexivity].
  exact (included_parts_monotone [chunk "aaaaa" ""; chunk "bbbbb" ""] 5 10 HL).
Defined.

(** X14.  When all the formatted chunks together fit the budget, every one
    of them is in the context, in order. *)
Theorem included_parts_all_fit (documents : list Document) (L : Z) :
  (total_len (doc_text_of <$> documents) ≤ L)%Z →
  included_parts documents L = doc_text_of <$> documents.
Proof.
  intros Hfit. unfold included_parts. rewrite accumulate_greedy, app_nil_l.
  apply greedy_all. lia.
Qed.

(** A titled chunk and an untitled one within the default budget. *)
Lemma included_parts_all_fit_witness :
  (total_len (doc_text_of <$> [chunk "Open 24/7" "Hours"; chunk "Dubai" ""])
   ≤ 2000)%Z
  ∧ included_parts [chunk "Open 24/7" "Hours"; chunk "Dubai" ""] 2000
    = ["[Hours]" +:+ LF +:+ "Open 24/7"; "Dubai"].
Proof.
  assert (total_len (doc_text_of <$> [chunk "Open 24/7" "Hours"; chunk "Dubai" ""])
          ≤ 2000)%Z as Hfit by (by vm_compute).
  split; [exact Hfit|].
  rewrite (included_parts_all_fit _ 2000 Hfit). reflexivity.
Defined.

Lemma header_not_empty (text : string) : CONTEXT_HEADER +:+ text ≠ "".
Proof.
  intros H. apply (f_equal len) in H. rewrite len_app in H.
  change (len CONTEXT_HEADER) with 35%Z in H. change (len "") with 0%Z in H.
  pose proof (len_nonneg text). lia.
Qed.

(** X15.  The context is not empty exactly when there is a first document
    and its formatted text fits the budget on its own.  So a first chunk
    that is too long empties the context even if later chunks would fit,
    and a negative budget always gives the empty context. *)
Theorem context_nonempty_iff_first_fits (documents : list Document) (L : Z) :
  context_of documents L ≠ ""
  ↔ ∃ doc rest, documents = doc :: rest ∧ (len (doc_text_of doc) ≤ L)%Z.
Proof.
  unfold context_of. destruct documents as [|doc rest].
  - split; [done | by intros (? & ? & ? & _)].
  - rewrite accumulate_greedy, app_nil_l. csimpl.
    destruct (0 + len (doc_text_of doc) >? L)%Z eqn:Hgt.
    + rewrite Z.gtb_ltb in Hgt. apply Z.ltb_lt in Hgt.
      split; [done|]. intros (d & r & [= <- <-] & Hfit). lia.
    + rewrite Z.gtb_ltb in Hgt. apply Z.ltb_ge in Hgt.
      split; [|intros _; apply header_not_empty].
      intros _. exists doc, rest. split; [done | lia].
Qed.

(** X16.  The Pinecone service is made at most once: after a call that
    returned a service, every later call returns that same service and
    changes nothing, whatever making a service would give by then.  A call
    that could not make one returns [None], caches nothing, and leaves the
    world as it was, so the next call tries again. *)
Theorem get_pinecone_service_is_cached (E E' : Env) (w : World) :
  match (get_pinecone_service E w).1 with
  | inr (Some service) =>
      get_pinecone_service E' (get_pinecone_service E w).2
      = (inr (Some service), (get_pinecone_service E w).2)
  | inr None =>
      (get_pinecone_service E w).2 = w ∧ pinecone_service w = None
  | inl _ => False
  end.
Proof.
  unfold get_pinecone_service.
  destruct (pinecone_service w) as [svc|] eqn:Hps; cbn.
  - by rewrite Hps.
  - destruct (PineconeService_init E) as [e|svc]; cbn; done.
Qed.


(** ** The first model call, further *)

Lemma parse_tool_calls_cases (E : Env) (raw : list RawToolCall) (w : World) :
  (∃ tool_calls, mapM (parse_tool_call E) raw w = (inr tool_calls, w)
                 ∧ Forall2 (parsed E) raw tool_calls)
  ∨ (∃ tc e, mapM (parse_tool_call E) raw w = (inl e, w)
             ∧ tc ∈ raw ∧ json_loads E (raw_arguments tc) = inl e).
Proof.
  induction raw as [|tc raw IH].
  - left. exists []. split; [done | constructor].
  - cbn [mapM]. rewrite bind_unfold.
    assert (parse_tool_call E tc w
            = match json_loads E (raw_arguments tc) with
              | inr arguments =>
                  (inr (mkToolCall (raw_id tc) (raw_name tc) arguments), w)
              | inl e => (inl e, w)
              end) as ->.
    { unfold parse_tool_call. by destruct (json_loads E (raw_arguments tc)). }
    destruct (json_loads E (raw_arguments tc)) as [e|arguments] eqn:Hloads.
    + right. exists tc, e. split; [done|]. split; [|done].
      apply elem_of_cons. by left.
    + rewrite bind_unfold.
      destruct IH as [(tcs & -> & Hall) | (tc' & e & -> & Hin & He)].
      * left. eexists (_ :: tcs). split; [done|]. constructor; [|done].
        by repeat split.
      * right. exists tc', e. split; [done|]. split; [|done].
        apply elem_of_cons. by right.
Qed.

(** What [get_completion] returns, by what the model answered. *)
Lemma get_completion_cases (E : Env) (messages : list nat)
    (use_tools include_system_prompt : bool) (w : World) :
  let req := {| req_messages := formatted_messages_of w messages include_system_prompt;
                req_tools := if use_tools then Some AVAILABLE_TOOLS else None |} in
  ∃ x, get_completion E messages use_tools include_system_prompt w
       = (x, logged w req)
    ∧ match chat_completions_create E (length (model_calls w)) req with
      | inl e => x = inl ("OpenAI API error: " +:+ e)
      | inr resp =>
          match resp_tool_calls resp with
          | [] => x = inr (resp_content resp, None)
          | _ :: _ =>
              (∃ tool_calls,
                 x = inr (Some (content_or_empty (resp_content resp)),
                          Some tool_calls)
                 ∧ Forall2 (parsed E) (resp_tool_calls resp) tool_calls)
              ∨ (∃ tc e,
                   x = inl ("OpenAI API error: " +:+ e)
                   ∧ tc ∈ resp_tool_calls resp
                   ∧ json_loads E (raw_arguments tc) = inl e)
          end
      end.
Proof.
  intros req. unfold get_completion, rewrap. rewrite bind_unfold. unfold get_world.
  rewrite bind_unfold. unfold create. fold req.
  destruct (chat_completions_create E _ req) as [e|resp]; [by eexists|].
  destruct (resp_tool_calls resp) as [|tc raw] eqn:Hraw; [by eexists|].
  rewrite bind_unfold.
  destruct (parse_tool_calls_cases E (tc :: raw) (logged w req))
    as [(tcs & -> & Hall) | (tc' & e & -> & Hin & He)].
  - eexists. split; [done|]. left. by exists tcs.
  - eexists. split; [done|]. right. by exists tc', e.
Qed.

(** X17.  [get_completion] sends exactly one request and touches nothing
    else: the messages, the booking store and the Pinecone singleton are as
    before, the catalog is attached exactly when tools are enabled, and
    whatever goes wrong is raised as ["OpenAI API error: ..."]. *)
Theorem get_completion_frame (E : Env) (messages : list nat)
    (use_tools include_system_prompt : bool) (w : World) :
  let out := get_completion E messages use_tools include_system_prompt w in
  heap out.2 = heap w
  ∧ store out.2 = store w
  ∧ pinecone_service out.2 = pinecone_service w
  ∧ (∃ req, model_calls out.2 = model_calls w ++ [req]
            ∧ req_tools req = if use_tools then Some AVAILABLE_TOOLS else None)
  ∧ (∀ e, out.1 = inl e → ∃ e', e = "OpenAI API error: " +:+ e').
Proof.
  cbn zeta.
  destruct (get_completion_cases E messages use_tools include_system_prompt w)
    as (x & -> & Hx).
  cbn [fst snd]. split_and!; try done.
  - by eexists.
  - intros e ->.
    destruct (chat_completions_create E _ _) as [e0|resp].
    + injection Hx as ->. by eexists.
    + destruct (resp_tool_calls resp); [done|].
      destruct Hx as [(tcs & Hx & _) | (tc & e1 & Hx & _)]; [done|].
      injection Hx as ->. by eexists.
Qed.

(** X18.  With the system prompt enabled, the list sent by [get_completion]
    always starts with a system-role message, the history's own or the
    default one, and holds the history after at most one added message;
    with it disabled, the list is the history and nothing else. *)
Theorem get_completion_system_message (E : Env) (messages : list nat)
    (use_tools include_system_prompt : bool) (w : World) :
  ∃ req,
    model_calls (get_completion E messages use_tools include_system_prompt w).2
    = model_calls w ++ [req]
    ∧ (include_system_prompt = true →
       cm_role <$> head (req_messages req) = Some "system"
       ∧ (req_messages req = format_message w <$> messages
          ∨ req_messages req = system_message :: (format_message w <$> messages)))
    ∧ (include_system_prompt = false →
       req_messages req = format_message w <$> messages).
Proof.
  destruct (get_completion_cases E messages use_tools include_system_prompt w)
    as (x & -> & _).
  eexists. split; [done|]. cbn [req_messages]. unfold formatted_messages_of.
  split; [|by intros ->].
  intros ->. cbn [andb]. destruct (lacks_system w messages) eqn:Hlacks.
  - split; [done | by right].
  - split; [|by left].
    destruct messages as [|l rest]; [done|]. cbn in *.
    apply negb_false_iff, bool_decide_eq_true in Hlacks. by rewrite Hlacks.
Qed.

(** X19.  What [get_completion] hands back follows the model's answer: no
    tool calls in the answer give its content and no list; tool calls give
    a list that is not empty, one entry per call in the same order with the
    same id and name and the arguments as parsed, and a content that is a
    string, empty when the model gave none. *)
Theorem get_completion_returns (E : Env) (messages : list nat)
    (use_tools include_system_prompt : bool) (w : World)
    (content : option string) (tool_calls : option (list ToolCall)) :
  (get_completion E messages use_tools include_system_prompt w).1
  = inr (content, tool_calls) →
  ∃ req resp,
    model_calls (get_completion E messages use_tools include_system_prompt w).2
    = model_calls w ++ [req]
    ∧ chat_completions_create E (length (model_calls w)) req = inr resp
    ∧ match tool_calls with
      | None => resp_tool_calls resp = [] ∧ content = resp_content resp
      | Some tcs =>
          tcs ≠ []
          ∧ Forall2 (parsed E) (resp_tool_calls resp) tcs
          ∧ content = Some (content_or_empty (resp_content resp))
      end.
Proof.
  destruct (get_completion_cases E messages use_tools include_system_prompt w)
    as (x & -> & Hx).
  cbn [fst snd]. intros ->.
  match type of Hx with
  | context [chat_completions_create E _ ?r] => exists r
  end.
  destruct (chat_completions_create E _ _) as [e0|resp]; [done|].
  exists resp. split; [done|]. split; [done|].
  destruct (resp_tool_calls resp) as [|tc raw].
  - by injection Hx as -> ->.
  - destruct Hx as [(tcs & Hx & Hall) | (tc' & e1 & Hx & _)]; [|done].
    injection Hx as -> ->. split; [|done].
    intros ->. by apply Forall2_nil_inv_r in Hall.
Qed.

(** The model asks for Ann's booking: one parsed tool call comes back. *)
Lemma get_completion_returns_witness :
  (get_completion (demo_env not_configured) [0%nat] true true
     (world_of [says User "Book me a massage"])).1
  = inr (Some "", Some [mkToolCall "call_1" "create_booking" ann_arguments])
  ∧ ∃ req, chat_completions_create (demo_env not_configured) 0 req
           = inr asks_create_booking.
Proof.
  assert ((get_completion (demo_env not_configured) [0%nat] true true
             (world_of [says User "Book me a massage"])).1
          = inr (Some "", Some [mkToolCall "call_1" "create_booking" ann_arguments]))
    as Hret by (by vm_compute).
  split; [exact Hret|].
  destruct (get_completion_returns _ _ _ _ _ _ _ Hret)
    as (req & resp & _ & Hchat & _).
  by exists req.
Defined.


(** ** The pass, further *)











(** Both loops at once: the store after the loop that builds the tool-role
    messages, and the shape of each message. *)
Lemma tool_messages_answer (E : Env) (tool_calls : list ToolCall)
    (tool_results : list string) (w : World) :
  length tool_results = length tool_calls →
  ∃ tool_messages,
    mapM (tool_message E) (zip tool_calls tool_results) w
    = (inr tool_messages, set_store w (run_all E tool_calls (store w)))
    ∧ Forall2 answers tool_calls tool_messages.
Proof.
  revert tool_results w.
  induction tool_calls as [|tc tcs IH]; intros [|r rs] w Hlen; try done.
  - exists []. split; [by destruct w | constructor].
  - cbn [zip zip_with mapM]. rewrite bind_unfold.
    unfold tool_message at 1. rewrite bind_unfold.
    unfold run_tool, on_store.
    destruct (execute_tool _ _ _ _ (store w)) as [res st1] eqn:Hex.
    cbn. rewrite bind_unfold.
    destruct (IH rs (set_store w st1)) as (ms & -> & Hans); [by injection Hlen|].
    eexists (_ :: ms). unfold run_all. cbn. rewrite Hex. split; [done|].
    constructor; [|done]. by repeat split.
Qed.

(** X23.  The list of the second model call is laid out as the chat
    protocol asks: the system prompt, the history, one assistant message
    that repeats every tool call with its id, its name and its arguments
    dumped again, then one tool-role message per call, in the order of the
    calls, each carrying the id of its call; the request goes out without
    the catalog. *)
Theorem second_call_layout (E : Env) (messages : list nat)
    (content : option string) (tool_calls : list ToolCall) (w : World) :
  ∃ req2 assistant tool_messages,
    model_calls (process_tool_calls E messages content tool_calls w).2
    = model_calls w ++ [req2]
    ∧ req_tools req2 = None
    ∧ req_messages req2
      = [system_message] ++ (format_message w <$> messages)
        ++ [assistant] ++ tool_messages
    ∧ cm_role assistant = "assistant"
    ∧ cm_content assistant = content_or_empty content
    ∧ (λ c, (wtc_id c, wtc_type c, wtc_name c, wtc_arguments c))
        <$> default [] (cm_tool_calls assistant)
      = (λ c, (tc_id c, "function", tc_name c,
               json_dumps_arguments E (tc_arguments c))) <$> tool_calls
    ∧ Forall2 answers tool_calls tool_messages.
Proof.
  unfold process_tool_calls. rewrite bind_unfold.
  destruct (tool_results_run_all E tool_calls w) as (rs & -> & Hlen).
  rewrite bind_unfold. unfold get_world. rewrite bind_unfold.
  destruct (tool_messages_answer E tool_calls rs
              (set_store w (run_all E tool_calls (store w))) Hlen)
    as (ms & -> & Hans).
  rewrite bind_unfold. unfold create.
  eexists _, (assistant_message E content tool_calls), ms.
  split.
  { destruct (chat_completions_create E _ _); cbn; reflexivity. }
  cbn. split; [done|]. split; [done|]. split; [done|]. split; [done|].
  split; [|done].
  rewrite <- list_fmap_compose. done.
Qed.


(** ** What the pass leaves alone *)

(** From the first model call on, nothing writes a message or the Pinecone
    singleton. *)
Lemma complete_frame (E : Env) (messages enhanced_messages : list nat) (w : World) :
  heap (complete E messages enhanced_messages w).2 = heap w
  ∧ pinecone_service (complete E messages enhanced_messages w).2
    = pinecone_service w.
Proof.
  unfold complete. rewrite bind_unfold.
  destruct (get_completion_one_call E enhanced_messages true true w) as (x & ->).
  destruct x as [e | [content [[|tc tcs]|]]]; try done.
  match goal with
  | |- context [process_tool_calls E messages content (tc :: tcs) ?w1] =>
      destruct (process_tool_calls_runs_twice E messages content (tc :: tcs) w1)
        as (tms & req2 & _ & _ & ->)
  end.
  done.
Qed.

(** The merge writes at most the content of the last message. *)
Lemma enhance_heap (A : string) (messages : list nat) (w : World) :
  heap (enhance A messages w).2 = heap w
  ∨ ∃ l c, last messages = Some l
           ∧ heap (enhance A messages w).2
             = alter (λ m, mkMessage (msg_id m) (role m) c (msg_created_at m))
                 l (heap w).
Proof.
  unfold enhance. destruct (negb (String.eqb A "")); [|by left].
  rewrite bind_unfold. unfold get_world.
  destruct (last messages) as [l|]; [|by left].
  destruct (bool_decide _); [|by left].
  right. by eexists l, _.
Qed.

(** X24.  Without retrieval the pass writes no message and does not touch
    the Pinecone singleton: the heap of message objects and the cached
    service are after the pass what they were before it. *)
Theorem pass_without_rag_frame (E : Env) (messages : list nat) (w : World) :
  heap (get_completion_with_tools E messages false w).2 = heap w
  ∧ pinecone_service (get_completion_with_tools E messages false w).2
    = pinecone_service w.
Proof.
  unfold get_completion_with_tools. rewrite bind_unfold.
  change (rag_context_of E messages false w) with (@mret M _ _ "" w).
  cbn [mret M_ret]. rewrite bind_unfold, enhance_empty.
  apply complete_frame.
Qed.

(** X25.  Whatever the retrieval gives, the pass neither adds nor removes a
    message object, and never changes an id, a role or a creation time: at
    every reference the message is after the pass what it was before,
    except that the one message at the end of the history may have another
    content. *)
Theorem pass_writes_last_content_only (E : Env) (messages : list nat)
    (use_rag : bool) (w : World) (l : nat) :
  let h' := heap (get_completion_with_tools E messages use_rag w).2 in
  h' !! l = heap w !! l
  ∨ (last messages = Some l
     ∧ ∃ m m', heap w !! l = Some m ∧ h' !! l = Some m'
               ∧ same_but_content m m').
Proof.
  cbn zeta. unfold get_completion_with_tools. rewrite bind_unfold.
  destruct (rag_context_of_total E messages use_rag w) as (s & p & ->).
  rewrite bind_unfold.
  set (w1 := mkWorld (heap w) (store w) p (model_calls w)).
  pose proof (enhance_heap s messages w1) as Hen.
  destruct (enhance_total s messages w1) as (h & Heq). rewrite Heq in Hen |- *.
  cbn [snd heap] in Hen.
  destruct (complete_frame E messages messages
              (mkWorld h (store w1) (pinecone_service w1) (model_calls w1)))
    as [-> _].
  cbn [heap]. destruct Hen as [-> | (l0 & c & Hlast & ->)]; [by left|].
  destruct (decide (l0 = l)) as [-> | Hne].
  - rewrite lookup_alter_eq. change (heap w1) with (heap w).
    destruct (heap w !! l) as [m|] eqn:Hl; cbn.
    + right. split; [done|]. eexists m, _. by repeat split.
    + by left.
  - left. by rewrite lookup_alter_ne.
Qed.


(** ** Chunking *)


Lemma size_of_nonneg (words : list string) : (0 ≤ size_of words)%Z.
Proof.
  unfold size_of. induction words as [|w words IH]; simpl; [done|].
  pose proof (len_nonneg w). lia.
Qed.










(** ** The prompts *)

(** X29.  [get_system_prompt] falls back to the default prompt for every
    type it does not know: only ["minimal"] and ["detailed"] give another
    text. *)
Theorem get_system_prompt_falls_back (prompt_type : string) :
  prompt_type ≠ "minimal" → prompt_type ≠ "detailed" →
  get_system_prompt prompt_type = SYSTEM_PROMPT.
Proof.
  intros Hmin Hdet. unfold get_system_prompt. cbn [dict_get].
  destruct (String.eqb "default" prompt_type); [done|].
  destruct (String.eqb "minimal" prompt_type) eqn:H1.
  { apply String.eqb_eq in H1. by subst. }
  destruct (String.eqb "detailed" prompt_type) eqn:H2.
  { apply String.eqb_eq in H2. by subst. }
  done.
Qed.

(** A type nobody defined. *)
Lemma get_system_prompt_falls_back_witness :
  "friendly" ≠ "minimal" ∧ "friendly" ≠ "detailed"
  ∧ get_system_prompt "friendly" = get_system_prompt "default".
Proof.
  assert ("friendly" ≠ "minimal") as H1 by discriminate.
  assert ("friendly" ≠ "detailed") as H2 by discriminate.
  split; [exact H1|]. split; [exact H2|].
  rewrite (get_system_prompt_falls_back "friendly" H1 H2). reflexivity.
Defined.


(** ** Seeding the store *)

(** X30.  The sample booking is made at most once: after any [get_booking]
    without a [booking_id] the store is not empty, and on a store that is
    not empty every [get_booking], whatever its arguments, is a read. *)
Theorem get_booking_seeds_once (C C' : Clock) (id e d s id' e' d' s' : value)
    (st : Store) :
  truthy id = false →
  let seeded := (get_booking C id e d s st).2 in
  bookings_db seeded ≠ []
  ∧ (get_booking C' id' e' d' s' seeded).2 = seeded.
Proof.
  intros Hid. cbn zeta.
  assert (bookings_db (get_booking C id e d s st).2 ≠ []) as Hne.
  { unfold get_booking. rewrite Hid.
    destruct (List.filter _ _) as [|b bs] eqn:Hf.
    - destruct (bookings_db st) as [|kb db] eqn:Hdb; cbn; [done|].
      by rewrite Hdb.
    - cbn. intros Hdb. by rewrite Hdb in Hf. }
  split; [done|].
  generalize dependent (get_booking C id e d s st).2. intros st1 Hne.
  unfold get_booking. destruct (truthy id').
  - by destruct (db_lookup id' (bookings_db st1)) as [[k b]|].
  - destruct (List.filter _ _); [|done].
    by destruct (bookings_db st1).
Qed.

(** Listing the empty store twice: the second listing changes nothing. *)
Lemma get_booking_seeds_once_witness :
  truthy VNone = false
  ∧ length (bookings_db
              (get_booking demo_clock VNone VNone VNone (VStr "all")
                 (get_booking demo_clock VNone VNone VNone (VStr "all")
                    empty_store).2).2) = 1%nat.
Proof.
  split; [reflexivity|].
  destruct (get_booking_seeds_once demo_clock demo_clock VNone VNone VNone
              (VStr "all") VNone VNone VNone (VStr "all") empty_store eq_refl)
    as [_ ->].
  reflexivity.
Defined.
